(** * TaskManager: the task lifecycle engine of [taskmanager.py]

    A shallow embedding of the Python program: the [Task] class with its
    status engine, the [TaskManager] store with its JSON codec and its
    duplicate removal, and the interactive operations [add_task],
    [edit_task], [complete_bullet], [delete_task] and [cleanup], followed by
    the properties of the specification that concern them.

    Conventions of the embedding.
    - A [datetime] is a point of the proleptic time line counted in
      microseconds, the resolution of Python's [datetime]; comparison and
      the addition of a [timedelta] are the integer ones.
    - A [str] is a [string]; its characters are read as the code points
      0..255.
    - Objects are values: [manager.tasks] is a list of [Task] records and a
      method that assigns to [self] returns the updated record.  The one
      place where the program mutates an object reachable under several
      names (the [bullets] list of [add_task]) writes the change through to
      every holder.
    - The console and the task file are fields of the [world] the
      operations run in, so is the clock; an operation reads one instant
      from it. *)

From Stdlib Require Import ZArith List Ascii String DecimalString Lia.
From stdpp Require Import base decidable option list strings gmap.

Set Warnings "-clear-no-such-hyp".

Local Open Scope string_scope.
Local Open Scope list_scope.
Local Open Scope Z_scope.

(** ** Time *)

Definition datetime : Type := Z.

(** [timedelta(minutes=m)] *)
Definition timedelta_minutes (m : Z) : Z := m * 60 * 1000000.

(** ** Task class *)

(** An item of the checklist, the dict [{"text": text, "done": flag}]. *)
Record bullet : Type := Bullet { text : string; done : bool }.

(** The attributes a [Task] object can carry.  [__init__] sets the first
    seven; [created_date] is attached by [from_dict] only and
    [expiry_update] by [edit_task] only, hence the options. *)
Record Task : Type := mkTask {
  id : Z;
  title : string;
  description : string;
  expiry_date : datetime;
  priority : string;
  bullets : list bullet;
  status : string;
  created_date : option datetime;
  expiry_update : option datetime
}.

(** [Task.__init__] *)
Definition Task_init (i : Z) (ti de : string) (ex : datetime) (pr : string)
    (bl : list bullet) : Task :=
  mkTask i ti de ex pr bl "not started" None None.

Definition set_status (s : string) (t : Task) : Task :=
  mkTask (id t) (title t) (description t) (expiry_date t) (priority t)
         (bullets t) s (created_date t) (expiry_update t).

Definition set_title (s : string) (t : Task) : Task :=
  mkTask (id t) s (description t) (expiry_date t) (priority t)
         (bullets t) (status t) (created_date t) (expiry_update t).

Definition set_description (s : string) (t : Task) : Task :=
  mkTask (id t) (title t) s (expiry_date t) (priority t)
         (bullets t) (status t) (created_date t) (expiry_update t).

Definition set_bullets (bl : list bullet) (t : Task) : Task :=
  mkTask (id t) (title t) (description t) (expiry_date t) (priority t)
         bl (status t) (created_date t) (expiry_update t).

Definition set_created_date (d : datetime) (t : Task) : Task :=
  mkTask (id t) (title t) (description t) (expiry_date t) (priority t)
         (bullets t) (status t) (Some d) (expiry_update t).

Definition set_expiry_update (d : datetime) (t : Task) : Task :=
  mkTask (id t) (title t) (description t) (expiry_date t) (priority t)
         (bullets t) (status t) (created_date t) (Some d).

(** [Task.is_expired], with the reading of the clock as argument. *)
Definition is_expired (now : datetime) (t : Task) : bool :=
  now >? expiry_date t.

(** [Task.is_deletable] *)
Definition is_deletable (now : datetime) (t : Task) : bool :=
  now >? expiry_date t + timedelta_minutes 5.

(** Truth value of a Python list: empty lists are false. *)
Definition truthy {A} (l : list A) : bool :=
  match l with [] => false | _ :: _ => true end.

(** [Task.update_status].  [all_done] is [all(b["done"] for b in bullets)];
    [any_done] is [any(["done"] for b in bullets)], whose elements are the
    one-element list [["done"]] and not the flag of [b]. *)
Definition update_status (now : datetime) (t : Task) : Task :=
  let is_expired := is_expired now t in
  let all_done := forallb (fun b => done b) (bullets t) in
  let any_done := existsb (fun _ => truthy ["done"]) (bullets t) in
  match is_expired, all_done, any_done with
  | true, _, _ => set_status "expired" t
  | false, true, _ => set_status "completed" t
  | false, false, true => set_status "in progress..." t
  | false, false, false => set_status "not started" t
  end.

(** [Task.lock_check]: [self.status in ["completed", "expired"]] *)
Definition lock_check (t : Task) : bool :=
  bool_decide (status t ∈ ["completed"; "expired"]).

(** ** Strings *)

(** [str.isspace] on the code points below 256. *)
Definition is_space (c : ascii) : bool :=
  let n := nat_of_ascii c in
  ((9 <=? n) && (n <=? 13) || (28 <=? n) && (n <=? 32)
   || (n =? 133) || (n =? 160))%nat.

(** [str.lower] on one code point below 256: the Latin capitals, and the
    accented capitals of U+00C0..U+00DE without the multiplication sign. *)
Definition lower_char (c : ascii) : ascii :=
  let n := nat_of_ascii c in
  if ((65 <=? n) && (n <=? 90)
      || (192 <=? n) && (n <=? 222) && negb (n =? 215))%nat
  then ascii_of_nat (n + 32) else c.

Fixpoint lower (s : string) : string :=
  match s with
  | EmptyString => EmptyString
  | String c s' => String (lower_char c) (lower s')
  end.

Fixpoint lstrip (s : string) : string :=
  match s with
  | EmptyString => EmptyString
  | String c s' => if is_space c then lstrip s' else s
  end.

(** The string without its trailing white space. *)
Fixpoint rstrip (s : string) : string :=
  match s with
  | EmptyString => EmptyString
  | String c s' =>
      match rstrip s' with
      | EmptyString => if is_space c then EmptyString else String c EmptyString
      | r => String c r
      end
  end.

(** [str.strip()] *)
Definition strip (s : string) : string := rstrip (lstrip s).

(** [str(n)] for an [int]. *)
Definition str (n : Z) : string := NilZero.string_of_int (Z.to_int n).

(** ** The world an operation runs in *)

(** A decoded object of the task file.  A key may be absent; a key that is
    present holds a value of the type [to_dict] writes under it.  The two
    dates stand for their ISO-8601 text: [datetime.fromisoformat] reads back
    what [isoformat] wrote. *)
Record task_dict : Type := mkDict {
  d_id : option Z;
  d_title : option string;
  d_description : option string;
  d_created_date : option datetime;
  d_expiry_date : option datetime;
  d_priority : option string;
  d_status : option string;
  d_bullets : option (list bullet)
}.

(** A line typed at the console, with what the library parsers make of it:
    [as_int] is the result of [int(...)] and [as_datetime fmt] the result
    of [datetime.strptime(..., fmt)], [None] standing for their
    [ValueError]. *)
Record line : Type := Line {
  raw : string;
  as_int : option Z;
  as_datetime : string -> option datetime
}.

(** A line of free text, a line holding an integer, and a line holding a
    date written in the format [fmt]. *)
Definition text_line (s : string) : line := Line s None (fun _ => None).
Definition int_line (s : string) (n : Z) : line :=
  Line s (Some n) (fun _ => None).
Definition date_line (s fmt : string) (d : datetime) : line :=
  Line s None (fun f => if String.eqb f fmt then Some d else None).

(** [manager.tasks], the content of [tasks.json] ([None]: the file is
    missing or blank), the lines still to be read from the console, what
    was written to it so far (prompts included), and the clock. *)
Record world : Type := World {
  tasks : list Task;
  file : option (list task_dict);
  stdin : list line;
  stdout : list string;
  clock : datetime
}.

Inductive exn : Type := ValueError | EOFError | NameError.

Inductive result (A : Type) : Type :=
| Returned (a : A)
| Raised (e : exn).
Arguments Returned {A} a.
Arguments Raised {A} e.

(** A piece of Python code: it runs in a world and either returns or
    raises, leaving the world as it was at that point. *)
Definition py (A : Type) : Type := world -> result A * world.

#[export] Instance py_ret : MRet py := fun A a w => (Returned a, w).
#[export] Instance py_bind : MBind py := fun A B f m w =>
  match m w with
  | (Returned a, w') => f a w'
  | (Raised e, w') => (Raised e, w')
  end.
#[export] Instance py_throw : MThrow exn py := fun A e w => (Raised e, w).

Definition get_tasks : py (list Task) := fun w => (Returned (tasks w), w).

Definition set_tasks (ts : list Task) : py unit := fun w =>
  (Returned tt, World ts (file w) (stdin w) (stdout w) (clock w)).

(** An assignment to an attribute of [manager.tasks[i]]. *)
Definition update_task (i : nat) (f : Task -> Task) : py unit := fun w =>
  (Returned tt,
   World (alter f i (tasks w)) (file w) (stdin w) (stdout w) (clock w)).

(** [datetime.now()] *)
Definition now : py datetime := fun w => (Returned (clock w), w).

(** [print(s)] *)
Definition print (s : string) : py unit := fun w =>
  (Returned tt,
   World (tasks w) (file w) (stdin w) (stdout w ++ [s]) (clock w)).

(** [input(prompt)]: the prompt is written, then a line is read;
    [EOFError] when the console has no line left. *)
Definition input (prompt : string) : py line := fun w =>
  let w' := World (tasks w) (file w) (tl (stdin w)) (stdout w ++ [prompt])
                  (clock w) in
  match stdin w with
  | [] => (Raised EOFError, w')
  | l :: _ => (Returned l, w')
  end.

(** [int(l)] and [datetime.strptime(l, fmt)] *)
Definition int (l : line) : py Z :=
  match as_int l with
  | Some n => mret n
  | None => mthrow ValueError
  end.

Definition strptime (l : line) (fmt : string) : py datetime :=
  match as_datetime l fmt with
  | Some d => mret d
  | None => mthrow ValueError
  end.

(** ** TaskManager class *)

(** [TaskManager.to_dict] on the list [self.tasks]. *)
Definition to_dict (now : datetime) (ts : list Task) : list task_dict :=
  map (fun t =>
         mkDict (Some (id t))
                (Some (title t))
                (Some (description t))
                (Some (default now (created_date t)))
                (Some (expiry_date t))
                (Some (priority t))
                (Some (status t))
                (Some (bullets t)))
      ts.

(** The body of the inner loop of [from_dict]: the task built from the
    object [d], every [d.get(key, fallback)] in its place. *)
Definition task_of_dict (now : datetime) (d : task_dict) : Task :=
  let task :=
    Task_init (default 0 (d_id d))
              (default "Untitleed" (d_title d))
              (default "no description" (d_description d))
              (default now (d_expiry_date d))
              (default "low" (d_priority d))
              (default [] (d_bullets d)) in
  let task := set_created_date (default now (d_created_date d)) task in
  set_status (default "not started" (d_status d)) task.

(** [TaskManager.from_dict]: [for d in data:] around [for d in data:]; the
    inner loop appends one task per object, at each turn of the outer one. *)
Definition from_dict (now : datetime) (data : list task_dict) : list Task :=
  flat_map (fun _ => map (task_of_dict now) data) data.

(** [TaskManager.load] *)
Definition load : py (list Task) := fun w =>
  match file w with
  | None => (Returned [], w)
  | Some data => (Returned (from_dict (clock w) data), w)
  end.

(** [TaskManager.save] *)
Definition save : py unit := fun w =>
  (Returned tt,
   World (tasks w) (Some (to_dict (clock w) (tasks w))) (stdin w) (stdout w)
         (clock w)).

(** The key of a task in [remove_duplicates]. *)
Definition task_hash (t : Task) : string * string * datetime :=
  (lower (strip (title t)), lower (strip (description t)), expiry_date t).

(** The loop of [remove_duplicates] over the tasks not yet visited, with
    its three variables. *)
Fixpoint remove_duplicates_loop (ts unique_tasks : list Task)
    (duplicates_count : Z) (seen_tasks : gset (string * string * datetime))
    : list Task * Z :=
  match ts with
  | [] => (unique_tasks, duplicates_count)
  | t :: ts' =>
      if decide (task_hash t ∉ seen_tasks)
      then remove_duplicates_loop ts' (unique_tasks ++ [t])
                                  duplicates_count
                                  ({[task_hash t]} ∪ seen_tasks)
      else remove_duplicates_loop ts' unique_tasks (duplicates_count + 1)
                                  seen_tasks
  end.

(** [TaskManager.remove_duplicates] *)
Definition remove_duplicates : py unit :=
  ts ← get_tasks;
  let '(unique_tasks, duplicates_count) := remove_duplicates_loop ts [] 0 ∅ in
  (if decide (duplicates_count ≠ 0)
   then print ("Remove " +:+ str duplicates_count +:+ " duplicate tasks")
   else mret tt);;
  set_tasks unique_tasks.

(** [TaskManager.__init__]; its last statement, [self.save], names the
    method without calling it. *)
Definition TaskManager_init : py unit :=
  ts ← load;
  set_tasks (if truthy ts then ts else []);;
  remove_duplicates.

(** ** Helper *)

(** [max(xs, default=d)] *)
Definition py_max (d : Z) (xs : list Z) : Z :=
  match xs with
  | [] => d
  | x :: xs' => fold_left Z.max xs' x
  end.

(** [get_next_id] *)
Definition get_next_id (ts : list Task) : Z :=
  if negb (truthy ts) then 1 else py_max 0 (map id ts) + 1.

(** ** Task functions *)

Definition get_stdin : py (list line) := fun w => (Returned (stdin w), w).

(** [bullets.append(b)] in [add_task], seen from [manager.tasks]: the tasks
    appended since the call began (those from index [first] on) hold the
    very list [bullets], so each of them shows the new item. *)
Definition share_bullets (first : nat) (bullets : list bullet)
    (ts : list Task) : list Task :=
  take first ts ++ map (set_bullets bullets) (drop first ts).

(** The [while True:] loop of [add_task].  It reads one line a turn;
    [pending] is the lines the console still holds when the turn begins.
    Everything down to [print("Task added.")] is inside the loop;
    [manager.save] names the method without calling it. *)
Fixpoint add_task_loop (title desc priority : string) (expiry : datetime)
    (first : nat) (pending : list line) (bullets : list bullet) : py unit :=
  match pending with
  | [] =>
      (* no line is left: [input] raises [EOFError] *)
      _ ← input "Bullet (Enter to stop): "; mret tt
  | _ :: pending' =>
      text ← input "Bullet (Enter to stop): ";
      if String.eqb (raw text) "" then mret tt
      else
        let bullets := bullets ++ [Bullet (raw text) false] in
        ts ← get_tasks;
        set_tasks (share_bullets first bullets ts);;
        ts ← get_tasks;
        let task_id := get_next_id ts in
        let task := Task_init task_id title desc expiry priority bullets in
        set_tasks (ts ++ [task]);;
        print "Task added.";;
        add_task_loop title desc priority expiry first pending' bullets
  end.

(** [add_task] *)
Definition add_task : py unit :=
  title ← input "title: ";
  desc ← input "description: ";
  priority ← input "priority (Low / Medium / High): ";
  l ← input "Expiry (YYYY-MM-DD HH:MM): ";
  expiry ← strptime l "%Y-%m-%d %H:%M";
  ts ← get_tasks;
  pending ← get_stdin;
  add_task_loop (raw title) (raw desc) (raw priority) expiry (length ts)
                pending [].

(** The [for task in manager.tasks:] loop of [edit_task] from the task of
    index [i] on, [rest] being the tasks not yet visited.  The result tells
    whether the function has returned from inside the loop. *)
Fixpoint edit_task_loop (task_id : Z) (i : nat) (rest : list Task)
    : py bool :=
  match rest with
  | [] => mret false
  | task :: rest' =>
      t ← now;
      update_task i (update_status t);;
      let task := update_status t task in
      if id task =? task_id then
        if lock_check task then
          print "Task is locked.";; mret true
        else
          l ← input "New title: ";
          update_task i (set_title (raw l));;
          l ← input "New description: ";
          update_task i (set_description (raw l));;
          l ← input "New expiry (YYYY-MM-DD HH:MM): ";
          d ← strptime l "%Y-%m_%d %H:%M";
          update_task i (set_expiry_update d);;
          save;;
          print "Task updated.";;
          mret true
      else edit_task_loop task_id (S i) rest'
  end.

(** [edit_task] *)
Definition edit_task : py unit :=
  l ← input "Task ID: ";
  task_id ← int l;
  ts ← get_tasks;
  returned ← edit_task_loop task_id 0 ts;
  if returned : bool then mret tt else print "Task ID not found.".

(** [complete_bullet].  The statements that find the task, check its lock
    and mark a bullet are indented under [while True:], after the [try].
    When the identifier parses, [break] leaves the loop before them and the
    function is over.  When it does not, they run with [task_id] unbound:
    the first of them that evaluates it, the generator of [next] on a
    non-empty store or else the message of [case None], raises
    [NameError]. *)
Definition complete_bullet : py unit :=
  l ← input "Task ID: ";
  match as_int l with
  | Some _ => mret tt
  | None =>
      print "please enter a valid ID number.";;
      mthrow NameError
  end.

(** The [while i < len(manager.tasks):] loop of [delete_task] from index
    [i] on; the result is [found]. *)
Fixpoint delete_task_loop (task_id : Z) (i : nat) (rest : list Task)
    : py bool :=
  match rest with
  | [] => mret false
  | task :: rest' =>
      if id task =? task_id then
        t ← now;
        (if is_deletable t task then
           ts ← get_tasks;
           set_tasks (delete i ts);;
           save;;
           print ("Task " +:+ str task_id +:+ " deleted.")
         else
           print "Task can not be deleted yet (must be expired + 5 min).");;
        mret true
      else delete_task_loop task_id (S i) rest'
  end.

(** [delete_task] *)
Definition delete_task : py unit :=
  ts ← get_tasks;
  match ts with
  | [] => print "No tasks to delete."
  | _ =>
      l ← input "Enter the Task ID to date: ";
      task_id ← int l;
      found ← delete_task_loop task_id 0 ts;
      if found : bool then mret tt
      else print ("Task ID " +:+ str task_id +:+ " not found.")
  end.

(** [cleanup] *)
Definition cleanup : py unit :=
  t ← now;
  ts ← get_tasks;
  set_tasks (filter (fun task => is_deletable t task = false) ts);;
  save.

(** ** Safe input helpers *)

(** The loop of the three helpers: [while True:] around the reading of a
    line, a [return] of what [parse] makes of it when it makes something,
    and the printing of [complaint] when it does not.  [pending] is the
    lines the console still holds when the turn begins. *)
Fixpoint ask {A} (prompt : string) (parse : line -> option A)
    (complaint : string) (pending : list line) : py A :=
  match pending with
  | [] =>
      (* no line is left: [input] raises [EOFError] *)
      _ ← input prompt; mthrow EOFError
  | _ :: pending' =>
      l ← input prompt;
      match parse l with
      | Some a => mret a
      | None => print complaint;; ask prompt parse complaint pending'
      end
  end.

(** [safe_int]: [int(input(prompt))] until it raises no [ValueError]. *)
Definition safe_int (prompt : string) : py Z :=
  pending ← get_stdin;
  ask prompt as_int "please enter a valid number." pending.

(** [safe_datetime]: [datetime.strptime(input(prompt), "%Y-%m-%d %H:%M")]
    until it raises no [ValueError]. *)
Definition safe_datetime (prompt : string) : py datetime :=
  pending ← get_stdin;
  ask prompt (fun l => as_datetime l "%Y-%m-%d %H:%M")
      "invalid date format. use YYYY-MM-DD HH:MM" pending.

(** [safe_priority]: [input(prompt).lower()] until it is one of the three
    priorities. *)
Definition safe_priority (prompt : string) : py string :=
  pending ← get_stdin;
  ask prompt
      (fun l => let p := lower (raw l) in
                if bool_decide (p ∈ ["low"; "medium"; "high"])
                then Some p else None)
      "priority must be low, medium, or high" pending.

(** ** search *)

(** [sub in s] on strings. *)
Fixpoint contains (sub s : string) : bool :=
  match s with
  | EmptyString => String.prefix sub EmptyString
  | String _ s' => String.prefix sub s || contains sub s'
  end.

(** The test of [search] on one task. *)
Definition matches (keyword : string) (task : Task) : bool :=
  contains keyword (lower (title task))
  || contains keyword (lower (description task)).

(** The [for task in manager.tasks:] loop of [search] with its variable
    [found]. *)
Fixpoint search_loop (keyword : string) (found : bool) (rest : list Task)
    : py bool :=
  match rest with
  | [] => mret found
  | task :: rest' =>
      if matches keyword task then
        print (str (id task) +:+ ": " +:+ title task
               +:+ " (" +:+ status task +:+ ")");;
        search_loop keyword true rest'
      else search_loop keyword found rest'
  end.

(** [search] *)
Definition search : py unit :=
  l ← input "search: ";
  let keyword := lower (raw l) in
  ts ← get_tasks;
  found ← search_loop keyword false ts;
  if found : bool then mret tt else print "No matching tasks found.".

(** ** view_tasks, menu and the main loop *)

(** The line feed of ["\n"]. *)
Definition nl : string := String (ascii_of_nat 10) EmptyString.

(** The text [menu] prints. *)
Definition menu_text : string :=
  nl +:+ "1. Add task" +:+ nl +:+ "2. Edit task" +:+ nl
  +:+ "3. Complete bullet                    " +:+ nl
  +:+ "4. Search" +:+ nl +:+ "5. View task" +:+ nl
  +:+ "6. Delete task" +:+ nl +:+ "7. EXIT" +:+ nl.

(** [menu] *)
Definition menu : py unit := print menu_text.

Section Console_output.

(** Two functions of the Python library that turn values into text:
    [d.strftime(fmt)] on a [datetime], and the text an f-string gives for
    the list [task.bullets]. *)
Variable strftime : datetime -> string -> string.
Variable repr_bullets : list bullet -> string.

(** The [while i < len(task.bullets):] loop of [view_tasks] from the
    index [i] on; its [else:] runs when the loop ends. *)
Fixpoint view_bullets (i : nat) (rest : list bullet) : py unit :=
  match rest with
  | [] => print "No bullets"
  | b :: rest' =>
      let status := if done b then "complete" else "not complete" in
      print ("  " +:+ str (Z.of_nat i + 1) +:+ ". " +:+ text b
             +:+ " " +:+ status);;
      view_bullets (S i) rest'
  end.

(** The [for task in manager.tasks:] loop of [view_tasks] from the task
    of index [i] on. *)
Fixpoint view_tasks_loop (i : nat) (rest : list Task) : py unit :=
  match rest with
  | [] => mret tt
  | task :: rest' =>
      t ← now;
      update_task i (update_status t);;
      let task := update_status t task in
      print (nl +:+ "ID: " +:+ str (id task));;
      print ("Title: " +:+ title task);;
      print ("Description: " +:+ description task);;
      print ("Expiry: " +:+ strftime (expiry_date task) "%Y-%m-%d %H:%M");;
      print ("priority: " +:+ priority task);;
      print ("status: " +:+ status task);;
      print ("bullets: " +:+ repr_bullets (bullets task));;
      (if truthy (bullets task) then view_bullets 0 (bullets task)
       else mret tt);;
      view_tasks_loop (S i) rest'
  end.

(** [view_tasks] *)
Definition view_tasks : py unit :=
  ts ← get_tasks;
  match ts with
  | [] => print "No tasks found."
  | _ => view_tasks_loop 0 ts
  end.

(** The [while True:] loop of [main].  Each turn reads at least the line
    of the choice, so [fuel] turns are enough for a console of fewer than
    [fuel] lines. *)
Fixpoint main_loop (fuel : nat) : py unit :=
  match fuel with
  | O => mthrow EOFError
  | S fuel' =>
      cleanup;;
      menu;;
      choice ← input "Enter your option: ";
      if String.eqb (raw choice) "1" then add_task;; main_loop fuel'
      else if String.eqb (raw choice) "2" then edit_task;; main_loop fuel'
      else if String.eqb (raw choice) "3" then
        complete_bullet;; main_loop fuel'
      else if String.eqb (raw choice) "4" then search;; main_loop fuel'
      else if String.eqb (raw choice) "5" then view_tasks;; main_loop fuel'
      else if String.eqb (raw choice) "6" then delete_task;; main_loop fuel'
      else if String.eqb (raw choice) "7" then mret tt
      else
        print "invaild choice. please Enter 1-7.";; main_loop fuel'
  end.

(** [main], with [manager = TaskManager()] as its first statement. *)
Definition main : py unit :=
  TaskManager_init;;
  pending ← get_stdin;
  main_loop (S (length pending)).

(** The two statements at the end of the file. *)
Definition program : py unit := main;; print "good bye".

End Console_output.

(** ** Vocabulary of the statements *)

(** A task as it comes back from the file: the attributes of [__init__]
    and [status] are the saved ones, [created_date] is the saved one or
    else the instant of the save, [expiry_update] is not written. *)
Definition reloaded (saved_at : datetime) (t : Task) : Task :=
  mkTask (id t) (title t) (description t) (expiry_date t) (priority t)
         (bullets t) (status t) (Some (default saved_at (created_date t)))
         None.

(** The two results of the loop of [remove_duplicates] on a store. *)
Definition unique_tasks_of (ts : list Task) : list Task :=
  (remove_duplicates_loop ts [] 0 ∅).1.
Definition duplicates_count_of (ts : list Task) : Z :=
  (remove_duplicates_loop ts [] 0 ∅).2.

(** The tasks the loop appends when it starts with the keys [seen]. *)
Definition appended (seen : gset (string * string * datetime))
    (ts : list Task) : list Task :=
  (remove_duplicates_loop ts [] 0 seen).1.

(** A relation between the world before and the world after that a piece
    of code may be shown to maintain however it ends: it holds of a world
    and itself, it composes, and it does not look at the console. *)
Class Frame (R : world -> world -> Prop) : Prop := {
  frame_refl : forall w, R w w;
  frame_trans : forall w1 w2 w3, R w1 w2 -> R w2 w3 -> R w1 w3;
  frame_console : forall w i o, R w (World (tasks w) (file w) i o (clock w))
}.

Definition keeps (R : world -> world -> Prop) {A} (m : py A) : Prop :=
  forall w, R w (m w).2.

(** The expiry dates of the store, in store order. *)
Definition same_expiry_dates (w w' : world) : Prop :=
  map expiry_date (tasks w') = map expiry_date (tasks w).

(** The task file. *)
Definition same_file (w w' : world) : Prop := file w' = file w.

(** The store [ts] after [n] more tasks were appended one by one, each
    built by [Task(...)] with the identifier [get_next_id] gives for the
    store at that point and with the checklist [bl]. *)
Fixpoint appended_tasks (ti de pr : string) (ex : datetime)
    (bl : list bullet) (ts : list Task) (n : nat) : list Task :=
  match n with
  | O => ts
  | S n' =>
      appended_tasks ti de pr ex bl
        (ts ++ [Task_init (get_next_id ts) ti de ex pr bl]) n'
  end.

(** The line [view_tasks] writes for the bullet [b] of index [i]. *)
Definition bullet_line (i : nat) (b : bullet) : string :=
  "  " +:+ str (Z.of_nat i + 1) +:+ ". " +:+ text b +:+ " "
  +:+ (if done b then "complete" else "not complete").

(** The lines [view_tasks] writes for a task whose status it has just
    recomputed. *)
Definition task_report (strftime : datetime -> string -> string)
    (repr_bullets : list bullet -> string) (task : Task) : list string :=
  [nl +:+ "ID: " +:+ str (id task);
   "Title: " +:+ title task;
   "Description: " +:+ description task;
   "Expiry: " +:+ strftime (expiry_date task) "%Y-%m-%d %H:%M";
   "priority: " +:+ priority task;
   "status: " +:+ status task;
   "bullets: " +:+ repr_bullets (bullets task)]
  ++ (if truthy (bullets task)
      then imap bullet_line (bullets task) ++ ["No bullets"]
      else []).

(** The console after holds what is left of the lines it held before. *)
Definition console_shrinks (w w' : world) : Prop :=
  stdin w' `suffix_of` stdin w.

(** The task file, once written, is there. *)
Definition file_stays (w w' : world) : Prop :=
  is_Some (file w) -> is_Some (file w').

(** The outcomes that are no normal return unless a line of [lines] is
    the choice 7. *)
Definition exits_by_seven {A} (r : result A * world) (lines : list line)
    : Prop :=
  match r.1 with
  | Returned _ => exists l, l ∈ lines /\ raw l = "7"
  | Raised _ => True
  end.

(** The identifiers of the store stay pairwise different, if they were. *)
Definition ids_distinct (w w' : world) : Prop :=
  NoDup (map id (tasks w)) -> NoDup (map id (tasks w')).

(** ** Sample values *)

(** The format [add_task] asks for and the format [edit_task] parses. *)
Definition fmt_add : string := "%Y-%m-%d %H:%M".
Definition fmt_edit : string := "%Y-%m_%d %H:%M".

(** Clock readings of 1 January 2030, in microseconds from its midnight:
    noon, one o'clock and two o'clock. *)
Definition noon : datetime := 43200000000.
Definition one_pm : datetime := 46800000000.
Definition two_pm : datetime := 50400000000.

(** A task due at one o'clock, as [Task(1, "A", "d", one_pm, "low", bl)]
    builds it. *)
Definition sample_task (bl : list bullet) : Task :=
  Task_init 1 "A" "d" one_pm "low" bl.

(** Two tasks as [from_dict] builds them. *)
Definition loaded_A : Task :=
  mkTask 1 "A" "d" one_pm "low" [] "not started" (Some noon) None.
Definition loaded_B : Task :=
  mkTask 2 "B" "e" two_pm "high" [Bullet "x" false] "not started"
         (Some noon) None.

(** The store of these two tasks at noon, no file written yet. *)
Definition two_task_store : world :=
  World [loaded_A; loaded_B] None [] [] noon.

(** Two tasks that differ in letter case and outer blanks only, and the
    store that holds them. *)
Definition milk_1 : Task := Task_init 1 "Buy milk" "two litres" one_pm "low" [].

(** A store whose only task expired an hour ago and is marked so, and a
    console on which the user types the task's identifier and then the
    number of its bullet. *)
Definition locked_task : Task :=
  set_status "expired" (sample_task [Bullet "x" false]).
Definition locked_store : world :=
  World [locked_task] None [int_line "1" 1; int_line "1" 1] [] two_pm.

(** A store of two tasks due at one o'clock, seen two minutes and six
    minutes after, with the identifier 2 typed on the console. *)
Definition task_two : Task := Task_init 2 "B" "e" one_pm "high" [].
Definition six_past : datetime := one_pm + timedelta_minutes 6.

(** A task that is open at noon, and two consoles that answer the
    questions of [edit_task] for it: the new date is typed once with the
    underscore the code's format has and once as the prompt asks. *)
Definition open_task : Task := sample_task [Bullet "x" false].
Definition edit_console (date : line) : list line :=
  [int_line "1" 1; text_line "T"; text_line "D"; date].
Definition edit_store (date : line) : world :=
  World [open_task] None (edit_console date) [] noon.
Definition date_underscore : line :=
  date_line "2030-01_01 14:00" fmt_edit two_pm.
Definition date_dash : line := date_line "2030-01-01 14:00" fmt_add two_pm.

(** The answers to [add_task] for a task "A" due at one o'clock with the
    bullets [texts], and an empty store in front of that console. *)
Definition add_console (texts : list string) : list line :=
  [text_line "A"; text_line "d"; text_line "low";
   date_line "2030-01-01 13:00" fmt_add one_pm]
  ++ map text_line texts ++ [text_line ""].
Definition add_store (texts : list string) : world :=
  World [] None (add_console texts) [] noon.

(** The store of the open task with an identifier on the console that no
    task has. *)
Definition unknown_id_store : world :=
  World [open_task] None [int_line "9" 9] [] noon.

(** * Properties *)

(** ** Status engine *)

Lemma status_set_status s t : status (set_status s t) = s.
Proof. reflexivity. Qed.

Lemma is_expired_true now t : is_expired now t = true <-> now > expiry_date t.
Proof. unfold is_expired. rewrite Z.gtb_gt. lia. Qed.

Lemma is_expired_false now t :
  is_expired now t = false <-> now <= expiry_date t.
Proof.
  unfold is_expired. destruct (Z.gtb_spec now (expiry_date t)); split;
    intros; try discriminate; try lia; reflexivity.
Qed.

(** What [update_status] computes on a task that is not expired: the
    outcome depends on the checklist through [all] and through the
    emptiness of the list only. *)
Lemma update_status_unexpired now t :
  now <= expiry_date t ->
  status (update_status now t) =
    if forallb done (bullets t) then "completed" else "in progress...".
Proof.
  intros Hle. apply is_expired_false in Hle.
  unfold update_status. rewrite Hle.
  destruct (bullets t) as [|b bl] eqn:Hb; [reflexivity|].
  change (existsb _ (b :: bl)) with true.
  destruct (forallb _ (b :: bl)) eqn:Hall; symmetry; exact Hall || reflexivity.
Qed.

(** X6: The branch [case (False, False, False)] is never taken: the status
    [update_status] writes is one of the other three. *)
Lemma update_status_range now t :
  status (update_status now t) ∈ ["expired"; "completed"; "in progress..."].
Proof.
  unfold update_status.
  destruct (is_expired now t); [set_solver|].
  destruct (bullets t) as [|b bl]; [set_solver|].
  change (existsb _ (b :: bl)) with true.
  destruct (forallb _ (b :: bl)); set_solver.
Qed.

(** [update_status] assigns to [self.status] only. *)
Lemma update_status_fields now t :
  update_status now t = set_status (status (update_status now t)) t.
Proof.
  unfold update_status.
  destruct (is_expired now t); [reflexivity|].
  destruct (forallb _ _); [reflexivity|].
  destruct (existsb _ _); reflexivity.
Qed.

(** C6: whenever the clock is past the expiry date, [update_status] sets
    the status to ["expired"], whatever the checklist holds. *)
Theorem update_status_expired (now : datetime) (t : Task) :
  now > expiry_date t -> status (update_status now t) = "expired".
Proof.
  intros Hgt. apply is_expired_true in Hgt.
  unfold update_status. rewrite Hgt. reflexivity.
Qed.

(** The scenario of the specification: a task past its expiry with two
    bullets, both done. *)
Lemma update_status_expired_witness :
  two_pm > expiry_date (sample_task [Bullet "x" true; Bullet "y" true]) /\
  status (update_status two_pm
            (sample_task [Bullet "x" true; Bullet "y" true])) = "expired".
Proof.
  split; [reflexivity|].
  apply (update_status_expired two_pm
           (sample_task [Bullet "x" true; Bullet "y" true])).
  reflexivity.
Defined.

(** An unexpired task without bullets is set to ["completed"]: [all] of
    an empty generator is true. *)
Lemma update_status_no_bullets now t :
  now <= expiry_date t -> bullets t = [] ->
  status (update_status now t) = "completed".
Proof.
  intros Hle Hb. rewrite update_status_unexpired by exact Hle.
  rewrite Hb. reflexivity.
Qed.

(** C4, at an input where the code departs from it: at noon the task due
    at one o'clock, with an empty checklist, is set to ["completed"]. *)
Theorem update_status_empty_checklist_completed :
  noon <= expiry_date (sample_task []) /\
  bullets (sample_task []) = [] /\
  status (update_status noon (sample_task [])) = "completed".
Proof. repeat split. discriminate. Qed.

(** An unexpired task with bullets of which none is done is set to
    ["in progress..."]. *)
Lemma update_status_none_done now t :
  now <= expiry_date t -> bullets t <> [] ->
  Forall (fun b => done b = false) (bullets t) ->
  status (update_status now t) = "in progress...".
Proof.
  intros Hle Hne Hall. rewrite update_status_unexpired by exact Hle.
  destruct (bullets t) as [|b bl]; [congruence|].
  apply Forall_cons in Hall as [Hb _]. simpl. rewrite Hb. reflexivity.
Qed.

(** C5, at an input where the code departs from it: at noon the task due
    at one o'clock, with one bullet that is not done, is set to
    ["in progress..."] and not to ["not started"]. *)
Theorem update_status_none_done_in_progress :
  noon <= expiry_date (sample_task [Bullet "x" false]) /\
  Forall (fun b => done b = false) (bullets (sample_task [Bullet "x" false])) /\
  status (update_status noon (sample_task [Bullet "x" false]))
    = "in progress...".
Proof.
  repeat split; [discriminate|]. repeat constructor.
Qed.

(** [lock_check] is true exactly on the two locked statuses. *)
Lemma lock_check_iff t :
  lock_check t = true <-> status t = "completed" \/ status t = "expired".
Proof.
  unfold lock_check. rewrite bool_decide_eq_true, !elem_of_cons, elem_of_nil.
  tauto.
Qed.


(** ** Persistence codec *)

Lemma task_of_dict_to_dict now saved_at t :
  map (task_of_dict now) (to_dict saved_at [t]) = [reloaded saved_at t].
Proof. reflexivity. Qed.

Lemma map_task_of_dict_to_dict now saved_at ts :
  map (task_of_dict now) (to_dict saved_at ts) = map (reloaded saved_at) ts.
Proof.
  unfold to_dict. rewrite map_map. apply map_ext. reflexivity.
Qed.

(** A task that came from the file and was not edited since is its own
    reloaded form. *)
Lemma reloaded_id saved_at t c :
  created_date t = Some c -> expiry_update t = None ->
  reloaded saved_at t = t.
Proof.
  destruct t as [i ti de ex pr bl st cr eu]. simpl.
  intros -> ->. reflexivity.
Qed.

(** An object without any key is decoded to the fallbacks of [from_dict];
    no key is required. *)
Lemma task_of_dict_defaults now :
  task_of_dict now (mkDict None None None None None None None None)
  = mkTask 0 "Untitleed" "no description" now "low" [] "not started"
           (Some now) None.
Proof. reflexivity. Qed.

Lemma length_flat_map_const {A B} (l : list A) (k : list B) :
  length (flat_map (fun _ => k) l) = (length l * length k)%nat.
Proof.
  induction l as [|a l IH]; simpl; [reflexivity|].
  rewrite length_app, IH. reflexivity.
Qed.

(** [from_dict] returns as many tasks as the square of the number of
    objects in the document. *)
Lemma length_from_dict now data :
  length (from_dict now data) = (length data * length data)%nat.
Proof.
  unfold from_dict. rewrite length_flat_map_const, length_map. reflexivity.
Qed.

Lemma length_to_dict now ts : length (to_dict now ts) = length ts.
Proof. apply length_map. Qed.

(** Saving then loading a store of [n] tasks gives [n * n] tasks. *)
Lemma length_from_dict_to_dict now saved_at ts :
  length (from_dict now (to_dict saved_at ts))
  = (length ts * length ts)%nat.
Proof. rewrite length_from_dict, length_to_dict. reflexivity. Qed.

(** A store of one task survives the round trip, up to the attributes the
    file does not carry. *)
Lemma from_dict_to_dict_single now saved_at t :
  from_dict now (to_dict saved_at [t]) = [reloaded saved_at t].
Proof. reflexivity. Qed.

(** [load] right after [save] decodes what [to_dict] made of the store. *)
Lemma load_save w :
  (save ;; load) w
  = (Returned (from_dict (clock w) (to_dict (clock w) (tasks w))),
     World (tasks w) (Some (to_dict (clock w) (tasks w))) (stdin w)
           (stdout w) (clock w)).
Proof. reflexivity. Qed.

(** C1, at an input where the code departs from it: a store of two tasks
    is saved with every key present, and loading the document gives four
    tasks, the two of the store twice over. *)
Theorem from_dict_to_dict_two_tasks :
  ((save ;; load) two_task_store).1
    = Returned [loaded_A; loaded_B; loaded_A; loaded_B] /\
  from_dict noon (to_dict noon [loaded_A; loaded_B])
    = [loaded_A; loaded_B; loaded_A; loaded_B] /\
  length (from_dict noon (to_dict noon [loaded_A; loaded_B])) = 4%nat /\
  from_dict noon (to_dict noon [loaded_A; loaded_B]) <> [loaded_A; loaded_B].
Proof. repeat split. discriminate. Qed.

(** ** Duplicate removal *)

Lemma remove_duplicates_loop_acc ts : forall u c seen,
  remove_duplicates_loop ts u c seen
  = (u ++ appended seen ts,
     c + (Z.of_nat (length ts) - Z.of_nat (length (appended seen ts)))).
Proof.
  unfold appended.
  induction ts as [|t ts IH]; intros u c seen.
  - simpl. rewrite app_nil_r. f_equal. lia.
  - cbn [remove_duplicates_loop]. case_decide.
    + rewrite (IH (u ++ [t])), (IH ([] ++ [t])). cbn [fst snd].
      set (r := (remove_duplicates_loop ts [] 0 _).1).
      rewrite <- app_assoc. change (([] ++ [t]) ++ r) with (t :: r).
      f_equal. cbn [length]. lia.
    + rewrite (IH u), (IH [] (0 + 1)). cbn [fst snd app].
      f_equal. cbn [length]. lia.
Qed.

Lemma appended_nil seen : appended seen [] = [].
Proof. reflexivity. Qed.

Lemma appended_cons seen t ts :
  appended seen (t :: ts)
  = if decide (task_hash t ∉ seen)
    then t :: appended ({[task_hash t]} ∪ seen) ts
    else appended seen ts.
Proof.
  unfold appended at 1. simpl.
  case_decide; rewrite remove_duplicates_loop_acc; reflexivity.
Qed.


Lemma appended_fresh ts : forall seen t,
  t ∈ appended seen ts -> task_hash t ∉ seen.
Proof.
  induction ts as [|u ts IH]; intros seen t.
  - rewrite appended_nil. intros Hin. inversion Hin.
  - rewrite appended_cons. case_decide as Hu.
    + rewrite elem_of_cons. intros [->|Hin]; [exact Hu|].
      apply IH in Hin. set_solver.
    + apply IH.
Qed.

Lemma appended_NoDup ts : forall seen,
  NoDup (task_hash <$> appended seen ts).
Proof.
  induction ts as [|u ts IH]; intros seen.
  - rewrite appended_nil. constructor.
  - rewrite appended_cons. case_decide as Hu; [|apply IH].
    simpl. constructor; [|apply IH].
    intros Hin. apply list_elem_of_fmap_1 in Hin as (t & Heq & Hin).
    apply appended_fresh in Hin. apply Hin.
    rewrite elem_of_union, elem_of_singleton. left. symmetry. exact Heq.
Qed.

Lemma appended_app xs : forall ys seen,
  appended seen (xs ++ ys)
  = appended seen xs ++ appended (seen ∪ list_to_set (task_hash <$> xs)) ys.
Proof.
  induction xs as [|x xs IH]; intros ys seen.
  - replace (seen ∪ _) with seen by set_solver. reflexivity.
  - change ((x :: xs) ++ ys) with (x :: (xs ++ ys)).
    rewrite !appended_cons. case_decide as Hx.
    + rewrite IH. simpl. do 3 f_equal. set_solver.
    + rewrite IH. do 2 f_equal. set_solver.
Qed.

(** Tasks with pairwise different keys, none of them seen before, are all
    kept. *)
Lemma appended_all ts : forall seen,
  NoDup (task_hash <$> ts) ->
  (forall t, t ∈ ts -> task_hash t ∉ seen) ->
  appended seen ts = ts.
Proof.
  induction ts as [|t ts IH]; intros seen Hnd Hfresh; [reflexivity|].
  simpl in Hnd. apply NoDup_cons in Hnd as [Hnin Hnd].
  rewrite appended_cons. rewrite decide_True by (apply Hfresh; left).
  f_equal. apply IH; [exact Hnd|].
  intros u Hu. rewrite elem_of_union, elem_of_singleton.
  intros [Heq|Hin].
  - apply Hnin. rewrite <- Heq. apply list_elem_of_fmap_2, Hu.
  - apply (Hfresh u); [right; exact Hu | exact Hin].
Qed.

Lemma remove_duplicates_run w :
  remove_duplicates w
  = (Returned tt,
     World (unique_tasks_of (tasks w)) (file w) (stdin w)
           (if decide (duplicates_count_of (tasks w) ≠ 0)
            then stdout w ++ ["Remove " +:+ str (duplicates_count_of (tasks w))
                                +:+ " duplicate tasks"]
            else stdout w)
           (clock w)).
Proof.
  unfold remove_duplicates, unique_tasks_of, duplicates_count_of.
  unfold mbind, py_bind, get_tasks. simpl.
  destruct (remove_duplicates_loop (tasks w) [] 0 ∅) as [u c]. simpl.
  case_decide; reflexivity.
Qed.

Lemma duplicates_count_length ts :
  duplicates_count_of ts
  = Z.of_nat (length ts) - Z.of_nat (length (unique_tasks_of ts)).
Proof.
  unfold duplicates_count_of, unique_tasks_of.
  rewrite remove_duplicates_loop_acc. simpl. reflexivity.
Qed.

Lemma unique_tasks_of_app pre post :
  unique_tasks_of (pre ++ post)
  = unique_tasks_of pre ++ appended (list_to_set (task_hash <$> pre)) post.
Proof.
  unfold unique_tasks_of. fold (appended ∅ (pre ++ post)) (appended ∅ pre).
  rewrite appended_app. do 2 f_equal. set_solver.
Qed.



(** ** Running the monad *)

Lemma run_bind {A B} (m : py A) (f : A -> py B) w :
  (m ≫= f) w
  = match m w with
    | (Returned a, w') => f a w'
    | (Raised e, w') => (Raised e, w')
    end.
Proof. reflexivity. Qed.

Lemma run_ret {A} (a : A) w : (mret a : py A) w = (Returned a, w).
Proof. reflexivity. Qed.

(** Runs the binds and the accesses to the world at the head of a goal. *)
Ltac run :=
  repeat first
    [ rewrite run_bind
    | rewrite run_ret
    | progress unfold get_tasks
    | progress unfold set_tasks
    | progress unfold update_task
    | progress unfold now
    | progress unfold print
    | progress unfold save
    | progress unfold get_stdin
    | progress cbn [fst snd tasks file stdin stdout clock tail] ].

Section Frame.
Context (R : world -> world -> Prop) `{!Frame R}.

Lemma keeps_ret {A} (a : A) : keeps R (mret a).
Proof. intros w. apply frame_refl. Qed.

Lemma keeps_throw {A} (e : exn) : keeps R (mthrow e : py A).
Proof. intros w. apply frame_refl. Qed.

Lemma keeps_bind {A B} (m : py A) (f : A -> py B) :
  keeps R m -> (forall a, keeps R (f a)) -> keeps R (m ≫= f).
Proof.
  intros Hm Hf w. rewrite run_bind. specialize (Hm w).
  destruct (m w) as [[a|e] w1]; [|exact Hm].
  eapply frame_trans; [exact Hm|]. apply Hf.
Qed.

Lemma keeps_if {A} (b : bool) (m1 m2 : py A) :
  keeps R m1 -> keeps R m2 -> keeps R (if b then m1 else m2).
Proof. destruct b; auto. Qed.

Lemma keeps_print s : keeps R (print s).
Proof. intros w. apply frame_console. Qed.

Lemma keeps_input p : keeps R (input p).
Proof. intros w. unfold input. destruct (stdin w); apply frame_console. Qed.

Lemma keeps_now : keeps R now.
Proof. intros w. apply frame_refl. Qed.

Lemma keeps_get_tasks : keeps R get_tasks.
Proof. intros w. apply frame_refl. Qed.

Lemma keeps_get_stdin : keeps R get_stdin.
Proof. intros w. apply frame_refl. Qed.

Lemma keeps_int l : keeps R (int l).
Proof.
  unfold int. destruct (as_int l); [apply keeps_ret|apply keeps_throw].
Qed.

Lemma keeps_strptime l fmt : keeps R (strptime l fmt).
Proof.
  unfold strptime.
  destruct (as_datetime l fmt); [apply keeps_ret|apply keeps_throw].
Qed.
End Frame.

(** Splits a goal [keeps R m] along the structure of [m]; the goals left
    are the facts about [R] and the parts of [m] that write to the store
    or to the file. *)
Ltac frame :=
  repeat
    (first
       [ apply keeps_bind
       | apply keeps_ret
       | apply keeps_throw
       | apply keeps_print
       | apply keeps_input
       | apply keeps_now
       | apply keeps_get_tasks
       | apply keeps_get_stdin
       | apply keeps_int
       | apply keeps_strptime
       | apply keeps_if ];
     try match goal with
         | |- Frame _ => typeclasses eauto
         | |- forall _, _ => intros ?
         end).

(** ** complete_bullet *)

(** Whatever the store holds, [complete_bullet] reads one line and stops:
    it returns when the line is an integer and raises [NameError] after
    its complaint when it is not.  The store and the file stay as they
    are and no message about a lock is ever written. *)
Lemma complete_bullet_run w :
  complete_bullet w
  = match stdin w with
    | [] =>
        (Raised EOFError,
         World (tasks w) (file w) [] (stdout w ++ ["Task ID: "]) (clock w))
    | l :: rest =>
        match as_int l with
        | Some _ =>
            (Returned tt,
             World (tasks w) (file w) rest (stdout w ++ ["Task ID: "])
                   (clock w))
        | None =>
            (Raised NameError,
             World (tasks w) (file w) rest
                   ((stdout w ++ ["Task ID: "])
                    ++ ["please enter a valid ID number."])
                   (clock w))
        end
    end.
Proof.
  unfold complete_bullet. rewrite run_bind. unfold input.
  destruct (stdin w) as [|l rest]; [reflexivity|].
  destruct (as_int l); reflexivity.
Qed.

(** C7, at an input where the code departs from it: on a store whose task
    1 is locked, [complete_bullet] given the identifier 1 returns after
    its prompt, without a message and without reading the bullet number;
    nothing tells the caller that the task is locked. *)
Theorem complete_bullet_locked_silent :
  lock_check locked_task = true /\
  lock_check (update_status two_pm locked_task) = true /\
  complete_bullet locked_store
  = (Returned tt,
     World [locked_task] None [int_line "1" 1] ["Task ID: "] two_pm).
Proof. repeat split. Qed.

(** ** delete_task *)

Lemma delete_task_loop_not_found task_id rest : forall i w,
  (forall t, t ∈ rest -> id t <> task_id) ->
  delete_task_loop task_id i rest w = (Returned false, w).
Proof.
  induction rest as [|t rest IH]; intros i w Hno; [reflexivity|].
  cbn [delete_task_loop].
  rewrite (proj2 (Z.eqb_neq _ _)) by (apply Hno; left).
  apply IH. intros u Hu. apply Hno. right. exact Hu.
Qed.

Lemma delete_task_loop_found task_id mid t post : forall pre w,
  tasks w = pre ++ mid ++ t :: post ->
  (forall u, u ∈ mid -> id u <> task_id) ->
  id t = task_id ->
  delete_task_loop task_id (length pre) (mid ++ t :: post) w
  = if is_deletable (clock w) t
    then (Returned true,
          World (pre ++ mid ++ post)
                (Some (to_dict (clock w) (pre ++ mid ++ post)))
                (stdin w)
                (stdout w ++ ["Task " +:+ str task_id +:+ " deleted."])
                (clock w))
    else (Returned true,
          World (tasks w) (file w) (stdin w)
                (stdout w
                 ++ ["Task can not be deleted yet (must be expired + 5 min)."])
                (clock w)).
Proof.
  induction mid as [|u mid IH]; intros pre w Hw Hno Hid.
  - cbn [app delete_task_loop]. rewrite (proj2 (Z.eqb_eq _ _)) by exact Hid.
    run.
    destruct (is_deletable (clock w) t); run; [|reflexivity].
    rewrite Hw. cbn [app]. rewrite delete_middle. reflexivity.
  - cbn [app delete_task_loop].
    rewrite (proj2 (Z.eqb_neq _ _)) by (apply Hno; left).
    specialize (IH (pre ++ [u]) w).
    rewrite length_app, Nat.add_1_r in IH. rewrite <- !app_assoc in IH.
    apply IH; [exact Hw| |exact Hid].
    intros v Hv. apply Hno. right. exact Hv.
Qed.

(** [delete_task] when no task has the identifier typed in. *)
Lemma delete_task_not_found w l rest k :
  stdin w = l :: rest -> as_int l = Some k ->
  (forall t, t ∈ tasks w -> id t <> k) ->
  delete_task w
  = (Returned tt,
     if truthy (tasks w)
     then World (tasks w) (file w) rest
            ((stdout w ++ ["Enter the Task ID to date: "])
             ++ ["Task ID " +:+ str k +:+ " not found."])
            (clock w)
     else World (tasks w) (file w) (stdin w)
            (stdout w ++ ["No tasks to delete."]) (clock w)).
Proof.
  intros Hin Hk Hno. unfold delete_task. run.
  destruct (tasks w) as [|t0 ts0] eqn:Hts; [run; rewrite Hts; reflexivity|].
  run. unfold input. rewrite Hin. unfold int. rewrite Hk. run.
  rewrite delete_task_loop_not_found by exact Hno. run.
  rewrite Hts. reflexivity.
Qed.

(** [delete_task] when [t] is the first task with the identifier typed
    in. *)
Lemma delete_task_found w l rest k pre t post :
  stdin w = l :: rest -> as_int l = Some k ->
  tasks w = pre ++ t :: post ->
  (forall u, u ∈ pre -> id u <> k) -> id t = k ->
  delete_task w
  = (Returned tt,
     if is_deletable (clock w) t
     then World (pre ++ post) (Some (to_dict (clock w) (pre ++ post))) rest
            ((stdout w ++ ["Enter the Task ID to date: "])
             ++ ["Task " +:+ str k +:+ " deleted."])
            (clock w)
     else World (tasks w) (file w) rest
            ((stdout w ++ ["Enter the Task ID to date: "])
             ++ ["Task can not be deleted yet (must be expired + 5 min)."])
            (clock w)).
Proof.
  intros Hin Hk Hw Hno Hid. unfold delete_task. run.
  destruct (tasks w) as [|t0 ts0] eqn:Hts; [destruct pre; discriminate|].
  run. unfold input. rewrite Hin. unfold int. rewrite Hk. run.
  set (w1 := World _ _ _ _ _).
  pose proof (delete_task_loop_found k pre t post [] w1) as Hloop.
  cbn [length app] in Hloop. rewrite Hw, Hloop;
    [|subst w1; cbn [tasks]; congruence|exact Hno|exact Hid].
  subst w1. clear Hloop. cbn [clock tasks file stdin stdout tail].
  destruct (is_deletable (clock w) t); run; rewrite ?Hts, ?Hw; reflexivity.
Qed.

(** The first task with a given identifier, when there is one, splits the
    store. *)
Lemma first_with_id k ts :
  (forall t, t ∈ ts -> id t <> k) \/
  (exists pre t post, ts = pre ++ t :: post /\
     (forall u, u ∈ pre -> id u <> k) /\ id t = k).
Proof.
  induction ts as [|t ts IH].
  - left. intros t Ht. inversion Ht.
  - destruct (decide (id t = k)) as [Heq|Hne].
    + right. exists [], t, ts. repeat split; [|exact Heq].
      intros u Hu. inversion Hu.
    + destruct IH as [Hno|(pre & u & post & -> & Hno & Hid)].
      * left. intros u Hu. apply elem_of_cons in Hu as [->|Hu]; auto.
      * right. exists (t :: pre), u, post. repeat split; [|exact Hid].
        intros v Hv. apply elem_of_cons in Hv as [->|Hv]; auto.
Qed.



(** ** edit_task *)

Lemma id_update_status now t : id (update_status now t) = id t.
Proof. rewrite update_status_fields. reflexivity. Qed.

Lemma expiry_date_update_status now t :
  expiry_date (update_status now t) = expiry_date t.
Proof. rewrite update_status_fields. reflexivity. Qed.

Lemma world_eta w :
  World (tasks w) (file w) (stdin w) (stdout w) (clock w) = w.
Proof. destruct w. reflexivity. Qed.

Lemma alter_middle {A} (f : A -> A) (l1 : list A) x l2 :
  alter f (length l1) (l1 ++ x :: l2) = l1 ++ f x :: l2.
Proof. induction l1 as [|y l1 IH]; [reflexivity|]. simpl. f_equal. exact IH. Qed.

(** The loop of [edit_task] over tasks with other identifiers: each has
    its status recomputed, nothing else happens. *)
Lemma edit_task_loop_skip k mid rest : forall pre w,
  tasks w = pre ++ mid ++ rest ->
  (forall u, u ∈ mid -> id u <> k) ->
  edit_task_loop k (length pre) (mid ++ rest) w
  = edit_task_loop k (length (pre ++ mid)) rest
      (World (pre ++ map (update_status (clock w)) mid ++ rest)
             (file w) (stdin w) (stdout w) (clock w)).
Proof.
  induction mid as [|u mid IH]; intros pre w Hw Hno.
  - cbn [app map] in *. rewrite app_nil_r, <- Hw, world_eta. reflexivity.
  - cbn [app edit_task_loop]. run.
    rewrite id_update_status.
    rewrite (proj2 (Z.eqb_neq _ _)) by (apply Hno; left).
    rewrite Hw. cbn [app]. rewrite alter_middle.
    set (w1 := World _ _ _ _ _).
    specialize (IH (pre ++ [update_status (clock w) u]) w1).
    rewrite length_app, Nat.add_1_r in IH. rewrite <- !app_assoc in IH.
    rewrite IH; [|reflexivity|intros v Hv; apply Hno; right; exact Hv].
    subst w1. clear IH. cbn [clock file stdin stdout].
    rewrite !length_app. cbn [length app map]. reflexivity.
Qed.

(** X16: [edit_task] when no task has the identifier typed in: every status is
    recomputed and the complaint is written. *)
Lemma edit_task_not_found w l rest k :
  stdin w = l :: rest -> as_int l = Some k ->
  (forall t, t ∈ tasks w -> id t <> k) ->
  edit_task w
  = (Returned tt,
     World (map (update_status (clock w)) (tasks w)) (file w) rest
           ((stdout w ++ ["Task ID: "]) ++ ["Task ID not found."])
           (clock w)).
Proof.
  intros Hin Hk Hno. unfold edit_task. run.
  unfold input. rewrite Hin. unfold int. rewrite Hk. run.
  set (w1 := World _ _ _ _ _).
  pose proof (edit_task_loop_skip k (tasks w) [] [] w1) as Hskip.
  rewrite app_nil_r in Hskip. cbn [length app] in Hskip.
  rewrite Hskip; [|reflexivity|exact Hno].
  subst w1. cbn [edit_task_loop]. run. rewrite app_nil_r. reflexivity.
Qed.

(** [edit_task] when the first task with the identifier typed in is
    locked once its status is recomputed. *)
Lemma edit_task_locked w l rest k pre t post :
  stdin w = l :: rest -> as_int l = Some k ->
  tasks w = pre ++ t :: post ->
  (forall u, u ∈ pre -> id u <> k) -> id t = k ->
  lock_check (update_status (clock w) t) = true ->
  edit_task w
  = (Returned tt,
     World (map (update_status (clock w)) pre
            ++ update_status (clock w) t :: post)
           (file w) rest
           ((stdout w ++ ["Task ID: "]) ++ ["Task is locked."])
           (clock w)).
Proof.
  intros Hin Hk Hw Hno Hid Hlock. unfold edit_task. run.
  unfold input. rewrite Hin. unfold int. rewrite Hk. run.
  set (w1 := World _ _ _ _ _).
  pose proof (edit_task_loop_skip k pre (t :: post) [] w1) as Hskip.
  cbn [length app] in Hskip.
  rewrite Hw, Hskip; [|exact Hw|exact Hno].
  subst w1. clear Hskip. cbn [edit_task_loop clock file stdin stdout]. run.
  rewrite id_update_status, (proj2 (Z.eqb_eq _ _)) by exact Hid.
  rewrite Hlock. run. cbn [app].
  rewrite <- (length_map (update_status (clock w)) pre), alter_middle.
  reflexivity.
Qed.

(** X18: [edit_task] when that task is not locked and the three answers are
    typed in, the last one in the format the code parses: title and
    description are replaced, the date goes to the attribute
    [expiry_update], the store is saved. *)
Lemma edit_task_updated w l l1 l2 l3 rest k pre t post d :
  stdin w = l :: l1 :: l2 :: l3 :: rest -> as_int l = Some k ->
  tasks w = pre ++ t :: post ->
  (forall u, u ∈ pre -> id u <> k) -> id t = k ->
  lock_check (update_status (clock w) t) = false ->
  as_datetime l3 fmt_edit = Some d ->
  edit_task w
  = (Returned tt,
     let ts := map (update_status (clock w)) pre
               ++ set_expiry_update d
                    (set_description (raw l2)
                       (set_title (raw l1) (update_status (clock w) t)))
                  :: post in
     World ts (Some (to_dict (clock w) ts)) rest
           (stdout w
            ++ ["Task ID: "; "New title: "; "New description: ";
                "New expiry (YYYY-MM-DD HH:MM): "; "Task updated."])
           (clock w)).
Proof.
  intros Hin Hk Hw Hno Hid Hlock Hd. unfold edit_task. run.
  unfold input at 1. rewrite Hin. unfold int. rewrite Hk. run.
  set (w1 := World _ _ _ _ _).
  pose proof (edit_task_loop_skip k pre (t :: post) [] w1) as Hskip.
  cbn [length app] in Hskip.
  rewrite Hw, Hskip; [|exact Hw|exact Hno].
  subst w1. clear Hskip. cbn [edit_task_loop clock file stdin stdout]. run.
  rewrite id_update_status, (proj2 (Z.eqb_eq _ _)) by exact Hid.
  rewrite Hlock. unfold input, strptime. fold fmt_edit. run.
  rewrite Hd. run. cbn [app].
  rewrite <- (length_map (update_status (clock w)) pre), !alter_middle.
  cbn zeta. rewrite <- !app_assoc. reflexivity.
Qed.

#[local] Instance same_expiry_dates_frame : Frame same_expiry_dates.
Proof.
  split; unfold same_expiry_dates.
  - reflexivity.
  - intros w1 w2 w3 H12 H23. rewrite H23. exact H12.
  - reflexivity.
Qed.

Lemma map_alter_same {A B} (g : A -> B) (f : A -> A) i (l : list A) :
  (forall x, g (f x) = g x) -> map g (alter f i l) = map g l.
Proof.
  intros Hf. revert i. induction l as [|x l IH]; intros [|i]; cbn;
    [reflexivity|reflexivity|rewrite Hf; reflexivity|f_equal; apply IH].
Qed.

Lemma keeps_expiry_dates_update_task i f :
  (forall t, expiry_date (f t) = expiry_date t) ->
  keeps same_expiry_dates (update_task i f).
Proof. intros Hf w. apply map_alter_same, Hf. Qed.

Lemma keeps_expiry_dates_save : keeps same_expiry_dates save.
Proof. intros w. reflexivity. Qed.

Lemma edit_task_loop_expiry_dates k rest : forall i,
  keeps same_expiry_dates (edit_task_loop k i rest).
Proof.
  induction rest as [|t rest IH]; intros i; cbn [edit_task_loop]; frame.
  - apply keeps_expiry_dates_update_task, expiry_date_update_status.
  - apply keeps_expiry_dates_update_task. reflexivity.
  - apply keeps_expiry_dates_update_task. reflexivity.
  - apply keeps_expiry_dates_update_task. reflexivity.
  - apply keeps_expiry_dates_save.
  - apply IH.
Qed.

(** X20: Whatever is typed in, [edit_task] leaves the expiry date of every
    task as it was. *)
Lemma edit_task_expiry_dates : keeps same_expiry_dates edit_task.
Proof.
  unfold edit_task. frame. apply edit_task_loop_expiry_dates.
Qed.

(** C3, at an input where the code departs from it: task 1 is not locked
    and the new values "T", "D" and two o'clock are typed in.  With the
    date in the one form the code accepts, the edit is reported as done
    and saved, title and description are the new ones, and the expiry
    date is still one o'clock, in the store and in the file: the new date
    went to [expiry_update].  With the date as the prompt asks for it,
    [strptime] raises and nothing is saved. *)
Theorem edit_task_leaves_expiry_date :
  lock_check (update_status noon open_task) = false /\
  (edit_task (edit_store date_underscore)).1 = Returned tt /\
  last (stdout (edit_task (edit_store date_underscore)).2)
    = Some "Task updated." /\
  map title (tasks (edit_task (edit_store date_underscore)).2) = ["T"] /\
  map description (tasks (edit_task (edit_store date_underscore)).2)
    = ["D"] /\
  map expiry_date (tasks (edit_task (edit_store date_underscore)).2)
    = [one_pm] /\
  map expiry_update (tasks (edit_task (edit_store date_underscore)).2)
    = [Some two_pm] /\
  map d_expiry_date <$> file (edit_task (edit_store date_underscore)).2
    = Some [Some one_pm] /\
  (edit_task (edit_store date_dash)).1 = Raised ValueError /\
  map expiry_date (tasks (edit_task (edit_store date_dash)).2) = [one_pm] /\
  file (edit_task (edit_store date_dash)).2 = None.
Proof. repeat split. Qed.

(** X17: On a task that is locked once its status is recomputed, [edit_task]
    answers that the task is locked; it assigns to the [status] of the
    tasks it went through and to nothing else, and it does not save. *)
Lemma edit_task_locked_unchanged w l rest k pre t post :
  stdin w = l :: rest -> as_int l = Some k ->
  tasks w = pre ++ t :: post ->
  (forall u, u ∈ pre -> id u <> k) -> id t = k ->
  lock_check (update_status (clock w) t) = true ->
  let w' := (edit_task w).2 in
  last (stdout w') = Some "Task is locked." /\
  file w' = file w /\
  Forall2 (fun u u' => exists s, u' = set_status s u) (tasks w) (tasks w').
Proof.
  intros Hin Hk Hw Hno Hid Hlock.
  rewrite (edit_task_locked w l rest k pre t post) by assumption.
  cbn [snd stdout file tasks]. split; [apply last_snoc|]. split; [reflexivity|].
  rewrite Hw. apply Forall2_app.
  - clear. induction pre as [|u pre IH]; constructor; [|exact IH].
    eexists. apply update_status_fields.
  - constructor.
    + eexists. apply update_status_fields.
    + clear. induction post as [|u post IH]; constructor; [|exact IH].
      exists (status u). destruct u. reflexivity.
Qed.

(** ** add_task *)

#[local] Instance same_file_frame : Frame same_file.
Proof.
  split; unfold same_file.
  - reflexivity.
  - intros w1 w2 w3 H12 H23. rewrite H23. exact H12.
  - reflexivity.
Qed.

Lemma keeps_file_set_tasks ts : keeps same_file (set_tasks ts).
Proof. intros w. reflexivity. Qed.

Lemma add_task_loop_file ti de pr ex first pending : forall bl,
  keeps same_file (add_task_loop ti de pr ex first pending bl).
Proof.
  induction pending as [|l pending IH]; intros bl; cbn [add_task_loop].
  - frame.
  - frame; try apply keeps_file_set_tasks. apply IH.
Qed.

(** X15: Whatever is typed in, [add_task] leaves the task file as it was. *)
Lemma add_task_file : keeps same_file add_task.
Proof. unfold add_task. frame. apply add_task_loop_file. Qed.

Lemma length_share_bullets first bl ts :
  length (share_bullets first bl ts) = length ts.
Proof.
  unfold share_bullets.
  rewrite length_app, length_map, length_take, length_drop. lia.
Qed.

(** The loop of [add_task] on a console that holds the bullets [texts],
    none of them empty, and then an empty line: one task is appended for
    each bullet. *)
Lemma add_task_loop_length ti de pr ex first rest texts : forall w bl,
  stdin w = map text_line texts ++ text_line "" :: rest ->
  Forall (fun s => s <> "") texts ->
  (add_task_loop ti de pr ex first (stdin w) bl w).1 = Returned tt /\
  length (tasks (add_task_loop ti de pr ex first (stdin w) bl w).2)
  = (length (tasks w) + length texts)%nat.
Proof.
  induction texts as [|s texts IH]; intros w bl Hin Hall;
    cbn [map app] in Hin; rewrite Hin; cbn [add_task_loop]; run;
    unfold input; rewrite Hin; run; cbn [raw text_line].
  - cbn [String.eqb]. run. cbn [length]. split; [reflexivity|lia].
  - apply Forall_cons in Hall as [Hs Hall].
    rewrite (proj2 (String.eqb_neq _ _)) by exact Hs. run.
    set (w1 := World _ _ _ _ _).
    specialize (IH w1 (bl ++ [Bullet s false]) eq_refl Hall).
    subst w1. cbn [stdin tasks] in IH.
    rewrite length_app, length_share_bullets in IH. cbn [length] in IH.
    destruct IH as [IH1 IH2]. split; [exact IH1|].
    rewrite IH2. cbn [length]. lia.
Qed.

(** [add_task] with its four answers typed in, then the bullets [texts]
    and an empty line: it returns, the store has grown by as many tasks as
    there are bullets, and the file is as before. *)
Lemma add_task_length w l1 l2 l3 l4 texts rest d :
  stdin w = l1 :: l2 :: l3 :: l4
            :: map text_line texts ++ text_line "" :: rest ->
  as_datetime l4 fmt_add = Some d ->
  Forall (fun s => s <> "") texts ->
  (add_task w).1 = Returned tt /\
  length (tasks (add_task w).2) = (length (tasks w) + length texts)%nat /\
  file (add_task w).2 = file w.
Proof.
  intros Hin Hd Hall.
  assert (keeps same_file add_task) as Hfile
    by (unfold add_task; frame; apply add_task_loop_file).
  split; [|split; [|apply Hfile]].
  - unfold add_task. unfold input, strptime. fold fmt_add. run.
    rewrite Hin. run. rewrite Hd. run.
    set (w1 := World _ _ _ _ _).
    apply (add_task_loop_length _ _ _ _ _ rest texts w1 []); [reflexivity|].
    exact Hall.
  - unfold add_task. unfold input, strptime. fold fmt_add. run.
    rewrite Hin. run. rewrite Hd. run.
    set (w1 := World _ _ _ _ _).
    apply (add_task_loop_length _ _ _ _ _ rest texts w1 []); [reflexivity|].
    exact Hall.
Qed.


Lemma map_id_share_bullets first bl ts :
  map id (share_bullets first bl ts) = map id ts.
Proof.
  unfold share_bullets. rewrite map_app, map_map. cbn [set_bullets id].
  rewrite <- map_app, take_drop. reflexivity.
Qed.





Lemma map_id_set_bullets bl ts : map id (map (set_bullets bl) ts) = map id ts.
Proof. rewrite map_map. reflexivity. Qed.



Lemma status_appended_tasks ti de pr ex bl n : forall ts,
  exists news,
    appended_tasks ti de pr ex bl ts n = ts ++ news /\
    length news = n /\
    Forall (fun t => status t = "not started" /\ title t = ti /\
                     description t = de /\ expiry_date t = ex /\
                     priority t = pr /\ bullets t = bl) news.
Proof.
  induction n as [|n IH]; intros ts; cbn [appended_tasks].
  - exists []. rewrite app_nil_r. repeat split. constructor.
  - destruct (IH (ts ++ [Task_init (get_next_id ts) ti de ex pr bl]))
      as (news & -> & Hlen & Hall).
    eexists (_ :: news). rewrite <- app_assoc. cbn [app length].
    split; [reflexivity|]. split; [congruence|].
    constructor; [repeat split|exact Hall].
Qed.

(** C2, at inputs where the code departs from it: a request without
    bullets adds no task, a request with two bullets adds two tasks, with
    the identifiers 1 and 2, and in neither case is the store written to
    the file, which is still missing afterwards. *)
Theorem add_task_not_one_not_saved :
  ((add_task (add_store [])).1 = Returned tt /\
   tasks (add_task (add_store [])).2 = [] /\
   file (add_task (add_store [])).2 = None) /\
  ((add_task (add_store ["x"; "y"])).1 = Returned tt /\
   tasks (add_task (add_store ["x"; "y"])).2
   = [Task_init 1 "A" "d" one_pm "low" [Bullet "x" false; Bullet "y" false];
      Task_init 2 "A" "d" one_pm "low" [Bullet "x" false; Bullet "y" false]] /\
   file (add_task (add_store ["x"; "y"])).2 = None) /\
  ((add_task (add_store ["x"])).1 = Returned tt /\
   tasks (add_task (add_store ["x"])).2
   = [Task_init 1 "A" "d" one_pm "low" [Bullet "x" false]] /\
   status <$> tasks (add_task (add_store ["x"])).2 = ["not started"] /\
   file (add_task (add_store ["x"])).2 = None).
Proof. repeat split. Qed.

(** ** get_next_id and TaskManager.__init__ *)

Lemma fold_left_max_ge xs : forall x,
  x <= fold_left Z.max xs x /\
  (forall y, y ∈ xs -> y <= fold_left Z.max xs x).
Proof.
  induction xs as [|z xs IH]; intros x; cbn [fold_left].
  - split; [lia|]. intros y Hy. inversion Hy.
  - destruct (IH (Z.max x z)) as [H1 H2]. split; [lia|].
    intros y Hy. apply elem_of_cons in Hy as [->|Hy]; [lia|].
    apply H2, Hy.
Qed.

(** The identifier [get_next_id] returns is above every identifier in the
    store, and it is 1 on the empty store. *)
Lemma get_next_id_fresh ts t : t ∈ ts -> id t < get_next_id ts.
Proof.
  intros Ht. unfold get_next_id.
  destruct ts as [|u ts]; [inversion Ht|]. cbn [truthy negb map py_max].
  destruct (fold_left_max_ge (map id ts) (id u)) as [H1 H2].
  apply elem_of_cons in Ht as [->|Ht]; [lia|].
  specialize (H2 (id t)). enough (id t ∈ map id ts) by (apply H2 in H; lia).
  apply list_elem_of_In, in_map, list_elem_of_In, Ht.
Qed.

Lemma get_next_id_nil : get_next_id [] = 1.
Proof. reflexivity. Qed.

(** The examples of the specification: after the identifiers 1, 2 and 5
    the next one is 6, and 3 once the task 5 is gone. *)
Lemma get_next_id_examples :
  get_next_id [Task_init 1 "" "" 0 "" []; Task_init 2 "" "" 0 "" [];
               Task_init 5 "" "" 0 "" []] = 6 /\
  get_next_id [Task_init 1 "" "" 0 "" []; Task_init 2 "" "" 0 "" []] = 3.
Proof. split; reflexivity. Qed.

(** [TaskManager.__init__]: the store is what [remove_duplicates] keeps of
    the decoded file, and the file is not written. *)
Lemma TaskManager_init_run w :
  let loaded := match file w with
                | None => []
                | Some data => from_dict (clock w) data
                end in
  tasks (TaskManager_init w).2 = unique_tasks_of loaded /\
  file (TaskManager_init w).2 = file w.
Proof.
  unfold TaskManager_init, load. run.
  destruct (file w) as [data|] eqn:Hfile; run;
    rewrite remove_duplicates_run; cbn [snd tasks file].
  - split; [|exact Hfile]. destruct (from_dict (clock w) data); reflexivity.
  - split; [reflexivity|exact Hfile].
Qed.

(** X22: Whatever is typed in and however it ends, [delete_task] leaves the
    store and the file as they were or removes one deletable task and
    saves the rest. *)
Lemma delete_task_frame w :
  let w' := (delete_task w).2 in
  (tasks w' = tasks w /\ file w' = file w) \/
  (exists pre t post,
     tasks w = pre ++ t :: post /\ is_deletable (clock w) t = true /\
     tasks w' = pre ++ post /\
     file w' = Some (to_dict (clock w) (pre ++ post))).
Proof.
  cbn zeta.
  destruct (tasks w) as [|t0 ts0] eqn:Hts.
  { left. unfold delete_task. run. rewrite Hts. run. rewrite Hts.
    split; reflexivity. }
  destruct (stdin w) as [|l rest] eqn:Hin.
  { left. unfold delete_task. run. rewrite Hts. run.
    unfold input. rewrite Hin. run. rewrite Hts. split; reflexivity. }
  destruct (as_int l) as [k|] eqn:Hk.
  - rewrite <- Hts.
    destruct (first_with_id k (tasks w))
      as [Hno|(pre & t & post & Hw & Hno & Hid)].
    + left. rewrite (delete_task_not_found w l rest k) by assumption.
      destruct (truthy (tasks w)); split; reflexivity.
    + rewrite (delete_task_found w l rest k pre t post) by assumption.
      destruct (is_deletable (clock w) t) eqn:Hdel.
      * right. exists pre, t, post. repeat split; assumption.
      * left. split; reflexivity.
  - left. unfold delete_task. run. rewrite Hts. run.
    unfold input, int. rewrite Hin. run. rewrite Hk. run. rewrite Hts.
    split; reflexivity.
Qed.

(** * Further properties *)

(** ** Status engine over time *)

(** X4: with its checklist as it is, a task that [update_status] locks at
    one instant is locked by [update_status] at every later instant. *)
Theorem lock_check_permanent (now now' : datetime) (t : Task) :
  now <= now' ->
  lock_check (update_status now t) = true ->
  lock_check (update_status now' t) = true.
Proof.
  intros Hle Hlock.
  destruct (Z.le_gt_cases now' (expiry_date t)) as [Hin|Hout].
  - apply lock_check_iff. left.
    apply lock_check_iff in Hlock.
    rewrite update_status_unexpired in Hlock |- * by lia.
    destruct (forallb done (bullets t)); [reflexivity|].
    destruct Hlock; discriminate.
  - apply lock_check_iff. right. apply update_status_expired. lia.
Qed.

Lemma lock_check_permanent_witness :
  lock_check (update_status two_pm (sample_task [Bullet "x" true])) = true.
Proof.
  apply (lock_check_permanent noon two_pm (sample_task [Bullet "x" true]));
    [discriminate|reflexivity].
Defined.

(** X5: a task that is deletable is past its expiry: [update_status] at
    that instant sets it to ["expired"], and it is locked. *)
Theorem is_deletable_expired (now : datetime) (t : Task) :
  is_deletable now t = true ->
  status (update_status now t) = "expired" /\
  lock_check (update_status now t) = true.
Proof.
  intros Hdel. unfold is_deletable in Hdel. apply Z.gtb_gt in Hdel.
  assert (status (update_status now t) = "expired") as Hexp.
  { apply update_status_expired. unfold timedelta_minutes in Hdel. lia. }
  split; [exact Hexp|]. apply lock_check_iff. right. exact Hexp.
Qed.

Lemma is_deletable_expired_witness :
  status (update_status six_past task_two) = "expired" /\
  lock_check (update_status six_past task_two) = true.
Proof. apply (is_deletable_expired six_past task_two). reflexivity. Defined.

(** ** The task file at start-up *)

Lemma flat_map_const_replicate {A B} (k : list B) (l : list A) :
  flat_map (fun _ => k) l = concat (replicate (length l) k).
Proof.
  induction l as [|a l IH]; [reflexivity|].
  cbn [flat_map length replicate concat]. rewrite IH. reflexivity.
Qed.


Lemma appended_none ts : forall seen,
  (forall t, t ∈ ts -> task_hash t ∈ seen) -> appended seen ts = [].
Proof.
  induction ts as [|t ts IH]; intros seen Hseen; [reflexivity|].
  rewrite appended_cons, decide_False.
  - apply IH. intros u Hu. apply Hseen. right. exact Hu.
  - intros Hnew. apply Hnew, Hseen. left.
Qed.

Lemma elem_of_concat_replicate {A} n (l : list A) x :
  x ∈ concat (replicate n l) -> x ∈ l.
Proof.
  induction n as [|n IH]; cbn [replicate concat].
  - intros Hx. inversion Hx.
  - rewrite elem_of_app. intros [Hx|Hx]; [exact Hx|apply IH, Hx].
Qed.

(** Duplicate removal sees no difference between a list and the same list
    repeated. *)
Lemma unique_tasks_of_repeated n ts :
  unique_tasks_of (concat (replicate (S n) ts)) = unique_tasks_of ts.
Proof.
  cbn [replicate concat]. rewrite unique_tasks_of_app.
  rewrite appended_none; [apply app_nil_r|].
  intros t Ht. apply elem_of_concat_replicate in Ht.
  apply elem_of_list_to_set, list_elem_of_fmap_2, Ht.
Qed.

Lemma unique_tasks_of_from_dict now data :
  unique_tasks_of (from_dict now data)
  = unique_tasks_of (map (task_of_dict now) data).
Proof.
  unfold from_dict. rewrite flat_map_const_replicate.
  destruct data as [|d data]; [reflexivity|].
  cbn [length]. apply unique_tasks_of_repeated.
Qed.

Lemma unique_tasks_of_NoDup ts :
  NoDup (task_hash <$> ts) -> unique_tasks_of ts = ts.
Proof.
  intros Hnd. apply (appended_all ts ∅ Hnd).
  intros t _. apply not_elem_of_empty.
Qed.

(** What [TaskManager.__init__] does in full. *)
Lemma TaskManager_init_closed w :
  TaskManager_init w
  = (Returned tt,
     let loaded := match file w with
                   | None => []
                   | Some data => from_dict (clock w) data
                   end in
     World (unique_tasks_of loaded) (file w) (stdin w)
           (if decide (duplicates_count_of loaded ≠ 0)
            then stdout w ++ ["Remove " +:+ str (duplicates_count_of loaded)
                                +:+ " duplicate tasks"]
            else stdout w)
           (clock w)).
Proof.
  unfold TaskManager_init, load. run.
  destruct (file w) as [data|] eqn:Hfile; run;
    rewrite remove_duplicates_run; cbn [tasks file stdin stdout clock];
    rewrite ?Hfile.
  - destruct (from_dict (clock w) data); reflexivity.
  - reflexivity.
Qed.



Lemma task_hash_reloaded saved_at t :
  task_hash (reloaded saved_at t) = task_hash t.
Proof. reflexivity. Qed.

Lemma fmap_task_hash_reloaded saved_at ts :
  task_hash <$> map (reloaded saved_at) ts = task_hash <$> ts.
Proof.
  induction ts as [|t ts IH]; [reflexivity|].
  cbn [map fmap list_fmap]. f_equal. exact IH.
Qed.

(** X9: a store whose tasks have pairwise different keys survives [save]
    followed by a restart: [TaskManager.__init__] on the saved file gives
    the same tasks in the same order, each with the attributes the file
    carries ([created_date] set to the instant of the save when the task
    had none, [expiry_update] gone). *)
Theorem save_restart (w : world) (saved_at : datetime) (ts : list Task) :
  file w = Some (to_dict saved_at ts) ->
  NoDup (task_hash <$> ts) ->
  tasks (TaskManager_init w).2 = map (reloaded saved_at) ts.
Proof.
  intros Hfile Hnd. rewrite TaskManager_init_closed, Hfile.
  cbn [snd tasks]. rewrite unique_tasks_of_from_dict.
  rewrite map_task_of_dict_to_dict. apply unique_tasks_of_NoDup.
  rewrite fmap_task_hash_reloaded. exact Hnd.
Qed.

Lemma NoDup_two_task_store : NoDup (task_hash <$> [loaded_A; loaded_B]).
Proof.
  apply NoDup_cons. split; [|apply NoDup_singleton].
  intros Hin. apply list_elem_of_singleton in Hin. vm_compute in Hin.
  discriminate.
Qed.

Lemma save_restart_witness :
  tasks (TaskManager_init (save two_task_store).2).2
    = map (reloaded noon) [loaded_A; loaded_B].
Proof.
  apply (save_restart (save two_task_store).2 noon [loaded_A; loaded_B]
           eq_refl NoDup_two_task_store).
Defined.



(** X11: [remove_duplicates] run a second time changes nothing and
    reports nothing. *)
Theorem remove_duplicates_twice (w : world) :
  (remove_duplicates;; remove_duplicates) w = remove_duplicates w.
Proof.
  rewrite run_bind, !remove_duplicates_run. cbn [tasks file stdin stdout clock].
  set (u := unique_tasks_of (tasks w)).
  assert (unique_tasks_of u = u) as Hu
    by apply unique_tasks_of_NoDup, appended_NoDup.
  rewrite duplicates_count_length, Hu, Z.sub_diag.
  rewrite (decide_False (P := 0 ≠ 0)) by (intros H; apply H; reflexivity).
  reflexivity.
Qed.


(** ** Identifiers *)

(** X12: the identifier [get_next_id] returns is above every identifier
    of the store, so no task of the store has it. *)
Theorem get_next_id_above (ts : list Task) :
  Forall (fun t => id t < get_next_id ts) ts.
Proof. apply Forall_forall. intros t Ht. apply get_next_id_fresh, Ht. Qed.

#[local] Instance ids_distinct_frame : Frame ids_distinct.
Proof.
  split; unfold ids_distinct; cbn [tasks]; auto.
Qed.

Lemma keeps_modify_tasks (R : world -> world -> Prop) `{!Frame R} {A}
    (g : list Task -> list Task) (k : py A) :
  (forall w, R w (World (g (tasks w)) (file w) (stdin w) (stdout w)
                        (clock w))) ->
  keeps R k ->
  keeps R (get_tasks ≫= fun ts => set_tasks (g ts) ≫= fun _ => k).
Proof.
  intros Hg Hk w. run. specialize (Hk (World (g (tasks w)) (file w)
    (stdin w) (stdout w) (clock w))).
  destruct (k _) as [r w']. eapply frame_trans; [apply Hg|exact Hk].
Qed.

Lemma add_task_loop_ids ti de pr ex first pending : forall bl,
  keeps ids_distinct (add_task_loop ti de pr ex first pending bl).
Proof.
  induction pending as [|l pending IH]; intros bl; cbn [add_task_loop].
  - frame.
  - apply (keeps_bind ids_distinct); [apply (keeps_input ids_distinct)|intros text].
    apply keeps_if; [apply (keeps_ret ids_distinct)|].
    apply (keeps_modify_tasks ids_distinct
             (share_bullets first (bl ++ [Bullet (raw text) false]))).
    { intros w Hnd. cbn [tasks]. rewrite map_id_share_bullets. exact Hnd. }
    apply (keeps_modify_tasks ids_distinct
             (fun ts => ts ++ [Task_init (get_next_id ts) ti de ex pr
                                 (bl ++ [Bullet (raw text) false])])).
    { intros w Hnd. cbn [tasks]. rewrite map_app. cbn [map Task_init id].
      apply NoDup_app. split; [exact Hnd|]. split; [|apply NoDup_singleton].
      intros i Hi Hi'. apply list_elem_of_singleton in Hi' as ->.
      apply list_elem_of_In, in_map_iff in Hi as (t & Hid & Ht).
      apply list_elem_of_In, get_next_id_fresh in Ht. lia. }
    apply (keeps_bind ids_distinct); [apply (keeps_print ids_distinct)|intros _].
    apply IH.
Qed.

(** X13: [add_task] never gives two tasks the same identifier: if the
    identifiers of the store are pairwise different before, they are so
    after, whatever is typed and however the call ends. *)
Theorem add_task_ids_distinct : keeps ids_distinct add_task.
Proof. unfold add_task. frame. apply add_task_loop_ids. Qed.


(** ** More on edit_task *)

Lemma edit_task_not_found_witness :
  edit_task unknown_id_store
  = (Returned tt,
     World [update_status noon open_task] None []
           ["Task ID: "; "Task ID not found."] noon).
Proof.
  apply (edit_task_not_found unknown_id_store (int_line "9" 9) [] 9
           eq_refl eq_refl).
  intros t Ht. apply list_elem_of_singleton in Ht as ->. discriminate.
Defined.

Lemma edit_task_locked_unchanged_witness :
  last (stdout (edit_task locked_store).2) = Some "Task is locked." /\
  file (edit_task locked_store).2 = None /\
  Forall2 (fun u u' => exists s, u' = set_status s u)
          [locked_task] (tasks (edit_task locked_store).2).
Proof.
  apply (edit_task_locked_unchanged locked_store (int_line "1" 1)
           [int_line "1" 1] 1 [] locked_task [] eq_refl eq_refl eq_refl);
    [|reflexivity|reflexivity].
  intros u Hu. inversion Hu.
Defined.

Lemma edit_task_updated_witness :
  tasks (edit_task (edit_store date_underscore)).2
  = [set_expiry_update two_pm
       (set_description "D" (set_title "T" (update_status noon open_task)))].
Proof.
  refine (f_equal (fun r => tasks r.2)
            (edit_task_updated (edit_store date_underscore) (int_line "1" 1)
               (text_line "T") (text_line "D") date_underscore [] 1 []
               open_task [] two_pm eq_refl eq_refl eq_refl _ eq_refl
               eq_refl eq_refl)).
  intros u Hu. inversion Hu.
Defined.

(** X19: [edit_task] on an unlocked task when the new date does not parse
    in the format of the code: [strptime] raises [ValueError] after the
    title and the description were assigned, so the store holds the new
    title and description and the file, not written, still the old
    ones. *)
Theorem edit_task_bad_date (w : world) (l l1 l2 l3 : line)
    (rest : list line) (k : Z) (pre : list Task) (t : Task)
    (post : list Task) :
  stdin w = l :: l1 :: l2 :: l3 :: rest -> as_int l = Some k ->
  tasks w = pre ++ t :: post ->
  (forall u, u ∈ pre -> id u <> k) -> id t = k ->
  lock_check (update_status (clock w) t) = false ->
  as_datetime l3 fmt_edit = None ->
  edit_task w
  = (Raised ValueError,
     World (map (update_status (clock w)) pre
            ++ set_description (raw l2)
                 (set_title (raw l1) (update_status (clock w) t))
               :: post)
           (file w) rest
           (stdout w
            ++ ["Task ID: "; "New title: "; "New description: ";
                "New expiry (YYYY-MM-DD HH:MM): "])
           (clock w)).
Proof.
  intros Hin Hk Hw Hno Hid Hlock Hd. unfold edit_task. run.
  unfold input at 1. rewrite Hin. unfold int. rewrite Hk. run.
  set (w1 := World _ _ _ _ _).
  pose proof (edit_task_loop_skip k pre (t :: post) [] w1) as Hskip.
  cbn [length app] in Hskip.
  rewrite Hw, Hskip; [|exact Hw|exact Hno].
  subst w1. clear Hskip. cbn [edit_task_loop clock file stdin stdout]. run.
  rewrite id_update_status, (proj2 (Z.eqb_eq _ _)) by exact Hid.
  rewrite Hlock. unfold input, strptime. fold fmt_edit. run.
  rewrite Hd. run. cbn [app].
  rewrite <- (length_map (update_status (clock w)) pre), !alter_middle.
  rewrite <- !app_assoc. reflexivity.
Qed.

Lemma edit_task_bad_date_witness :
  edit_task (edit_store date_dash)
  = (Raised ValueError,
     World [set_description "D" (set_title "T" (update_status noon open_task))]
           None []
           ["Task ID: "; "New title: "; "New description: ";
            "New expiry (YYYY-MM-DD HH:MM): "]
           noon).
Proof.
  apply (edit_task_bad_date (edit_store date_dash) (int_line "1" 1)
           (text_line "T") (text_line "D") date_dash [] 1 [] open_task []
           eq_refl eq_refl eq_refl);
    [|reflexivity|reflexivity|reflexivity].
  intros u Hu. inversion Hu.
Defined.

(** ** cleanup *)

Lemma cleanup_run w :
  cleanup w
  = (Returned tt,
     let kept := filter (fun task => is_deletable (clock w) task = false)
                        (tasks w) in
     World kept (Some (to_dict (clock w) kept)) (stdin w) (stdout w)
           (clock w)).
Proof. reflexivity. Qed.





(** ** Safe input helpers *)

(** The loop of the helpers on a console that holds the lines [bad], none
    of which parses, and then a line that does: it returns what that line
    parses to, having written the prompt before each line read and the
    complaint after each line of [bad]. *)
Lemma ask_skips {A} prompt (parse : line -> option A) complaint bad :
  forall w good rest a,
  stdin w = bad ++ good :: rest ->
  Forall (fun l => parse l = None) bad ->
  parse good = Some a ->
  ask prompt parse complaint (stdin w) w
  = (Returned a,
     World (tasks w) (file w) rest
           (stdout w ++ flat_map (fun _ => [prompt; complaint]) bad
            ++ [prompt])
           (clock w)).
Proof.
  induction bad as [|b bad IH]; intros w good rest a Hin Hbad Hgood;
    cbn [app] in Hin; rewrite Hin; cbn [ask]; run;
    unfold input; rewrite Hin; run.
  - rewrite Hgood. reflexivity.
  - apply Forall_cons in Hbad as [Hb Hbad]. rewrite Hb. run.
    set (w1 := World _ _ _ _ _).
    pose proof (IH w1 good rest a eq_refl Hbad Hgood) as IH'.
    subst w1. cbn [tasks file stdin stdout clock] in IH'. rewrite IH'.
    cbn [flat_map app]. rewrite <- !app_assoc. reflexivity.
Qed.

(** The loop of the helpers never ends in [ValueError]: what it returns
    is what one of the lines of the console parses to, and what it raises
    is the [EOFError] of a console that ran out. *)
Lemma ask_result {A} prompt (parse : line -> option A) complaint pending :
  forall w,
  match (ask prompt parse complaint pending w).1 with
  | Returned a => exists l, l ∈ stdin w /\ parse l = Some a
  | Raised e => e = EOFError
  end.
Proof.
  induction pending as [|p pending IH]; intros w; cbn [ask]; run;
    unfold input; destruct (stdin w) as [|l rest] eqn:Hin; run;
    try reflexivity.
  destruct (parse l) as [a|] eqn:Hl; run.
  - exists l. split; [left|exact Hl].
  - set (w1 := World _ _ _ _ _). specialize (IH w1).
    destruct (ask prompt parse complaint pending w1) as [[a|e] w2];
      cbn [fst] in *; [|exact IH].
    destruct IH as (l' & Hl' & Ha). exists l'. split; [right; exact Hl'|].
    exact Ha.
Qed.

(** X1: [safe_int] skips the lines that are no integers, complaining
    once for each, and returns the first integer typed; the lines after it
    stay on the console. *)
Theorem safe_int_first_integer (prompt : string) (w : world)
    (bad : list line) (good : line) (rest : list line) (n : Z) :
  stdin w = bad ++ good :: rest ->
  Forall (fun l => as_int l = None) bad ->
  as_int good = Some n ->
  safe_int prompt w
  = (Returned n,
     World (tasks w) (file w) rest
           (stdout w
            ++ flat_map (fun _ => [prompt; "please enter a valid number."])
                        bad
            ++ [prompt])
           (clock w)).
Proof.
  intros Hin Hbad Hgood. unfold safe_int. run.
  apply (ask_skips _ _ _ bad w good rest n); assumption.
Qed.

Lemma safe_int_first_integer_witness :
  safe_int "n: "
    (World [] None [text_line "x"; int_line "7" 7; text_line "y"] [] noon)
  = (Returned 7,
     World [] None [text_line "y"]
           ["n: "; "please enter a valid number."; "n: "] noon).
Proof.
  apply (safe_int_first_integer "n: "
           (World [] None [text_line "x"; int_line "7" 7; text_line "y"] []
                  noon)
           [text_line "x"] (int_line "7" 7) [text_line "y"] 7 eq_refl);
    [|reflexivity].
  repeat constructor.
Defined.

(** X2: [safe_datetime] never raises [ValueError]: it returns a date
    that a line of the console parses to in the format
    ["%Y-%m-%d %H:%M"], or raises the [EOFError] of a console that ran
    out. *)
Theorem safe_datetime_result (prompt : string) (w : world) :
  match (safe_datetime prompt w).1 with
  | Returned d =>
      exists l, l ∈ stdin w /\ as_datetime l "%Y-%m-%d %H:%M" = Some d
  | Raised e => e = EOFError
  end.
Proof. unfold safe_datetime. run. apply ask_result. Qed.

(** X3: [safe_priority] returns nothing but ["low"], ["medium"] or
    ["high"], the lower-case form of a line of the console; otherwise it
    raises the [EOFError] of a console that ran out. *)
Theorem safe_priority_result (prompt : string) (w : world) :
  match (safe_priority prompt w).1 with
  | Returned p =>
      p ∈ ["low"; "medium"; "high"] /\
      exists l, l ∈ stdin w /\ p = lower (raw l)
  | Raised e => e = EOFError
  end.
Proof.
  unfold safe_priority. run.
  match goal with |- context [ask ?p ?f ?c ?pend w] =>
    pose proof (ask_result p f c pend w) as H;
    destruct (ask p f c pend w) as [[a|e] w'] end;
    cbn [fst] in *; [|exact H].
  destruct H as (l & Hl & Hp). cbn zeta in Hp.
  case_bool_decide as Hin; [|discriminate].
  injection Hp as <-. split; [exact Hin|]. exists l. split; [exact Hl|].
  reflexivity.
Qed.

(** ** search *)

Lemma prefix_spec sub : forall s,
  String.prefix sub s = true <-> exists post, s = sub +:+ post.
Proof.
  induction sub as [|c sub IH]; intros s.
  - split; [intros _; exists s; reflexivity|]. intros _.
    destruct s; reflexivity.
  - destruct s as [|d s]; cbn [String.prefix].
    + split; [discriminate|]. intros [post Hpost]. discriminate.
    + destruct (Ascii.ascii_dec c d) as [->|Hne].
      * rewrite IH. split; intros [post Hpost]; exists post.
        -- cbn. rewrite Hpost. reflexivity.
        -- cbn in Hpost. injection Hpost as ->. reflexivity.
      * split; [discriminate|]. intros [post Hpost]. cbn in Hpost.
        injection Hpost as <- _. contradiction.
Qed.

(** [contains sub s] tells whether [sub] occurs in [s]. *)
Lemma contains_spec sub : forall s,
  contains sub s = true <-> exists pre post, s = pre +:+ sub +:+ post.
Proof.
  induction s as [|c s IH]; cbn [contains].
  - rewrite prefix_spec. split.
    + intros [post Hpost]. exists "", post. exact Hpost.
    + intros (pre & post & Hs). destruct pre; [|discriminate].
      exists post. exact Hs.
  - rewrite orb_true_iff, prefix_spec, IH. split.
    + intros [[post Hpost]|(pre & post & Hs)].
      * exists "", post. exact Hpost.
      * exists (String c pre), post. cbn. rewrite Hs. reflexivity.
    + intros (pre & post & Hs). destruct pre as [|d pre].
      * left. exists post. exact Hs.
      * right. cbn in Hs. injection Hs as _ ->. exists pre, post.
        reflexivity.
Qed.

Lemma search_loop_run keyword rest : forall found w,
  search_loop keyword found rest w
  = (let hits := filter (fun t => matches keyword t = true) rest in
     (Returned (found || truthy hits),
      World (tasks w) (file w) (stdin w)
            (stdout w
             ++ map (fun t => str (id t) +:+ ": " +:+ title t
                              +:+ " (" +:+ status t +:+ ")") hits)
            (clock w))).
Proof.
  induction rest as [|t rest IH]; intros found w; cbn [search_loop].
  - cbn. rewrite orb_false_r, app_nil_r, world_eta. reflexivity.
  - rewrite filter_cons. destruct (matches keyword t) eqn:Hm.
    + rewrite decide_True by reflexivity. run. rewrite IH.
      cbn [tasks file stdin stdout clock truthy map].
      rewrite orb_true_r, <- app_assoc. reflexivity.
    + rewrite decide_False by discriminate. apply IH.
Qed.

(** X25: [search] lists, in store order, the tasks whose lower-case title
    or description contains the lower-case keyword, one line for each
    with its identifier, title and stored status, or says that nothing
    matches; it changes neither the store nor the file. *)
Theorem search_lists (w : world) (l : line) (rest : list line) :
  stdin w = l :: rest ->
  search w
  = (let hits := filter (fun t => matches (lower (raw l)) t = true)
                        (tasks w) in
     (Returned tt,
      World (tasks w) (file w) rest
            ((stdout w ++ ["search: "])
             ++ match hits with
                | [] => ["No matching tasks found."]
                | _ => map (fun t => str (id t) +:+ ": " +:+ title t
                                     +:+ " (" +:+ status t +:+ ")") hits
                end)
            (clock w))).
Proof.
  intros Hin. unfold search. run. unfold input. rewrite Hin. run.
  rewrite search_loop_run. cbn zeta. cbn [tasks file stdin stdout clock].
  destruct (filter _ (tasks w)) as [|t hits]; cbn [truthy orb map]; run.
  - rewrite app_nil_r. reflexivity.
  - reflexivity.
Qed.

Lemma search_lists_witness :
  search (World [milk_1; task_two] None [text_line "MILK"] [] noon)
  = (Returned tt,
     World [milk_1; task_two] None []
           ["search: "; "1: Buy milk (not started)"] noon).
Proof.
  apply (search_lists (World [milk_1; task_two] None [text_line "MILK"] []
                             noon) (text_line "MILK") [] eq_refl).
Defined.

(** ** view_tasks *)

Section View.
Variable strftime : datetime -> string -> string.
Variable repr_bullets : list bullet -> string.

Lemma view_bullets_run rest : forall i w,
  view_bullets i rest w
  = (Returned tt,
     World (tasks w) (file w) (stdin w)
           (stdout w ++ imap (fun j => bullet_line (i + j)) rest
            ++ ["No bullets"])
           (clock w)).
Proof.
  induction rest as [|b rest IH]; intros i w; cbn [view_bullets]; run.
  - reflexivity.
  - rewrite IH. cbn [tasks file stdin stdout clock imap].
    unfold bullet_line at 2. rewrite Nat.add_0_r, <- app_assoc. cbn [app].
    do 5 f_equal. apply imap_ext. intros j x _. cbn.
    rewrite Nat.add_succ_r. reflexivity.
Qed.

Lemma view_tasks_loop_run rest : forall pre w,
  tasks w = pre ++ rest ->
  view_tasks_loop strftime repr_bullets (length pre) rest w
  = (Returned tt,
     World (pre ++ map (update_status (clock w)) rest) (file w) (stdin w)
           (stdout w
            ++ flat_map (fun t => task_report strftime repr_bullets
                                    (update_status (clock w) t)) rest)
           (clock w)).
Proof.
  induction rest as [|t rest IH]; intros pre w Hw.
  - rewrite app_nil_r in Hw. cbn [view_tasks_loop map flat_map].
    rewrite !app_nil_r, <- Hw, world_eta. reflexivity.
  - cbn [view_tasks_loop]. run. rewrite Hw, alter_middle.
    set (t' := update_status (clock w) t).
    assert (forall w0 : world,
              (if truthy (bullets t') then view_bullets 0 (bullets t')
               else mret tt) w0
              = (Returned tt,
                 World (tasks w0) (file w0) (stdin w0)
                       (stdout w0
                        ++ (if truthy (bullets t')
                            then imap bullet_line (bullets t')
                                 ++ ["No bullets"]
                            else []))
                       (clock w0))) as Hbl.
    { intros w0. destruct (truthy (bullets t')).
      - rewrite view_bullets_run. reflexivity.
      - rewrite run_ret, app_nil_r, world_eta. reflexivity. }
    rewrite Hbl. run.
    set (w1 := World _ _ _ _ _).
    pose proof (IH (pre ++ [t']) w1) as IH'.
    rewrite length_app, Nat.add_1_r in IH'. rewrite IH'.
    + subst w1. cbn [tasks file stdin stdout clock map flat_map].
      fold t'. unfold task_report at 2. rewrite <- !app_assoc. reflexivity.
    + subst w1. cbn [tasks]. rewrite <- app_assoc. reflexivity.
Qed.

(** X26: [view_tasks] recomputes the status of every task of the store
    and changes nothing else; it does not write the file.  For each task
    it writes the report of the task with its new status, and for an
    empty store the one line ["No tasks found."]. *)
Theorem view_tasks_refreshes (w : world) :
  view_tasks strftime repr_bullets w
  = (Returned tt,
     World (map (update_status (clock w)) (tasks w)) (file w) (stdin w)
           (stdout w
            ++ (if truthy (tasks w)
                then flat_map (fun t => task_report strftime repr_bullets
                                          (update_status (clock w) t))
                              (tasks w)
                else ["No tasks found."]))
           (clock w)).
Proof.
  unfold view_tasks. run. destruct (tasks w) as [|t ts] eqn:Hts.
  - run. rewrite Hts. reflexivity.
  - rewrite <- Hts.
    pose proof (view_tasks_loop_run (tasks w) [] w eq_refl) as Hloop.
    cbn [length app] in Hloop. rewrite Hloop, Hts. reflexivity.
Qed.

Lemma bullets_update_status now t : bullets (update_status now t) = bullets t.
Proof. rewrite update_status_fields. reflexivity. Qed.

(** X27: the last line [view_tasks] writes, [t] being the last task of
    the store: ["No bullets"] when [t] has bullets, since the [else:] of
    the [while] that lists them runs when the list is through, and the
    line of the empty checklist when it has none. *)
Theorem view_tasks_last_line (w : world) (pre : list Task) (t : Task) :
  tasks w = pre ++ [t] ->
  last (stdout (view_tasks strftime repr_bullets w).2)
  = Some (if truthy (bullets t) then "No bullets"
          else "bullets: " +:+ repr_bullets []).
Proof.
  intros Hw. unfold view_tasks. run.
  destruct (tasks w) as [|t0 ts0] eqn:Hts; [destruct pre; discriminate|].
  rewrite <- Hts.
  pose proof (view_tasks_loop_run (tasks w) [] w eq_refl) as Hloop.
  cbn [length app] in Hloop. rewrite Hloop. cbn [snd stdout].
  rewrite Hts, Hw, flat_map_app. cbn [flat_map]. rewrite app_nil_r.
  unfold task_report. rewrite bullets_update_status.
  destruct (bullets t) as [|b bl]; cbn [truthy].
  - rewrite app_nil_r.
    rewrite !app_assoc.
    match goal with |- last (?l ++ [?a; ?b; ?c; ?d; ?e; ?f; ?g]) = _ =>
      change (l ++ [a; b; c; d; e; f; g])
        with (l ++ [a; b; c; d; e; f] ++ [g]) end.
    rewrite !app_assoc. apply last_snoc.
  - rewrite !app_assoc. apply last_snoc.
Qed.

End View.

Lemma view_tasks_last_line_witness :
  last (stdout (view_tasks (fun _ _ => "") (fun _ => "")
                  (World [task_two; open_task] None [] [] noon)).2)
  = Some "No bullets".
Proof.
  apply (view_tasks_last_line (fun _ _ => "") (fun _ => "")
           (World [task_two; open_task] None [] [] noon) [task_two]
           open_task eq_refl).
Defined.

(** ** The console during an operation *)

Section Chain.
Context (R : world -> world -> Prop) `{!PreOrder R}.

Lemma chain_ret {A} (a : A) : keeps R (mret a).
Proof. intros w. reflexivity. Qed.

Lemma chain_throw {A} (e : exn) : keeps R (mthrow e : py A).
Proof. intros w. reflexivity. Qed.

Lemma chain_bind {A B} (m : py A) (f : A -> py B) :
  keeps R m -> (forall a, keeps R (f a)) -> keeps R (m ≫= f).
Proof.
  intros Hm Hf w. rewrite run_bind. specialize (Hm w).
  destruct (m w) as [[a|e] w1]; [|exact Hm].
  transitivity w1; [exact Hm|apply Hf].
Qed.

Lemma chain_if {A} (b : bool) (m1 m2 : py A) :
  keeps R m1 -> keeps R m2 -> keeps R (if b then m1 else m2).
Proof. destruct b; auto. Qed.
End Chain.

#[local] Instance console_shrinks_preorder : PreOrder console_shrinks.
Proof.
  split.
  - intros w. unfold console_shrinks. reflexivity.
  - intros w1 w2 w3 H12 H23. unfold console_shrinks in *.
    etransitivity; eassumption.
Qed.

Lemma shrinks_input p : keeps console_shrinks (input p).
Proof.
  intros w. unfold input, console_shrinks.
  destruct (stdin w) as [|l rest]; cbn; [reflexivity|].
  apply suffix_cons_r. reflexivity.
Qed.

(** A piece of code that leaves the lines of the console alone. *)
Lemma shrinks_same_stdin {A} (m : py A) :
  (forall w, stdin (m w).2 = stdin w) -> keeps console_shrinks m.
Proof. intros Hm w. unfold console_shrinks. rewrite Hm. reflexivity. Qed.

Ltac shrink :=
  repeat
    (first
       [ apply (chain_bind console_shrinks)
       | apply (chain_ret console_shrinks)
       | apply (chain_throw console_shrinks)
       | apply shrinks_input
       | apply (chain_if console_shrinks)
       | apply shrinks_same_stdin; solve [intros ?; reflexivity]
       | match goal with
         | |- keeps _ (int ?l) =>
             unfold int; destruct (as_int l)
         | |- keeps _ (strptime ?l ?f) =>
             unfold strptime; destruct (as_datetime l f)
         | |- keeps _ (match ?x with _ => _ end) => destruct x
         end ];
     try match goal with
         | |- forall _, _ => intros ?
         end).

Lemma add_task_loop_shrinks ti de pr ex first pending : forall bl,
  keeps console_shrinks (add_task_loop ti de pr ex first pending bl).
Proof.
  induction pending as [|l pending IH]; intros bl; cbn [add_task_loop];
    shrink. apply IH.
Qed.

Lemma add_task_shrinks : keeps console_shrinks add_task.
Proof. unfold add_task. shrink. apply add_task_loop_shrinks. Qed.

Lemma edit_task_loop_shrinks k rest : forall i,
  keeps console_shrinks (edit_task_loop k i rest).
Proof.
  induction rest as [|t rest IH]; intros i; cbn [edit_task_loop]; shrink.
  apply IH.
Qed.

Lemma edit_task_shrinks : keeps console_shrinks edit_task.
Proof. unfold edit_task. shrink. apply edit_task_loop_shrinks. Qed.

Lemma complete_bullet_shrinks : keeps console_shrinks complete_bullet.
Proof. unfold complete_bullet. shrink. Qed.

Lemma search_loop_shrinks kw rest : forall found,
  keeps console_shrinks (search_loop kw found rest).
Proof.
  induction rest as [|t rest IH]; intros found; cbn [search_loop]; shrink;
    apply IH.
Qed.

Lemma search_shrinks : keeps console_shrinks search.
Proof. unfold search. shrink. apply search_loop_shrinks. Qed.

Lemma delete_task_loop_shrinks k rest : forall i,
  keeps console_shrinks (delete_task_loop k i rest).
Proof.
  induction rest as [|t rest IH]; intros i; cbn [delete_task_loop]; shrink.
  apply IH.
Qed.

Lemma delete_task_shrinks : keeps console_shrinks delete_task.
Proof. unfold delete_task. shrink. apply delete_task_loop_shrinks. Qed.

Lemma cleanup_shrinks : keeps console_shrinks cleanup.
Proof. apply shrinks_same_stdin. reflexivity. Qed.

Lemma menu_shrinks : keeps console_shrinks menu.
Proof. apply shrinks_same_stdin. reflexivity. Qed.

Lemma view_tasks_shrinks strftime repr_bullets :
  keeps console_shrinks (view_tasks strftime repr_bullets).
Proof.
  apply shrinks_same_stdin. intros w. unfold view_tasks. run.
  destruct (tasks w) as [|t ts] eqn:Hts; [reflexivity|].
  rewrite <- Hts.
  pose proof (view_tasks_loop_run strftime repr_bullets (tasks w) [] w
                eq_refl) as Hloop.
  cbn [length app] in Hloop. rewrite Hloop. reflexivity.
Qed.

(** ** main *)

Lemma elem_of_suffix_of {A} (l1 l2 : list A) x :
  l1 `suffix_of` l2 -> x ∈ l1 -> x ∈ l2.
Proof. intros [k ->] Hx. apply elem_of_app. right. exact Hx. Qed.

(** Two continuations that agree on every world whose console is a rest
    of the present one agree after any operation that only reads the
    console. *)
Lemma bind_shrinks_ext {A B} (op : py A) (k1 k2 : py B) w :
  keeps console_shrinks op ->
  (forall w', stdin w' `suffix_of` stdin w -> k1 w' = k2 w') ->
  (op;; k1) w = (op;; k2) w.
Proof.
  intros Hop Hk. rewrite !run_bind. specialize (Hop w).
  destruct (op w) as [[a|e] w']; [|reflexivity]. apply Hk, Hop.
Qed.

Lemma bind_exits_by_seven {A B} (op : py A) (k : py B) w :
  keeps console_shrinks op ->
  (forall w', exits_by_seven (k w') (stdin w')) ->
  exits_by_seven ((op;; k) w) (stdin w).
Proof.
  intros Hop Hk. rewrite run_bind. specialize (Hop w).
  destruct (op w) as [[a|e] w']; [|exact I].
  specialize (Hk w'). unfold exits_by_seven in *.
  destruct (k w') as [[b|e] w'']; cbn [fst] in *; [|exact I].
  destruct Hk as (l & Hl & H7). exists l. split; [|exact H7].
  eapply elem_of_suffix_of; eassumption.
Qed.

#[local] Instance file_stays_frame : Frame file_stays.
Proof. split; unfold file_stays; cbn [file]; auto. Qed.

Lemma stays_same_file {A} (m : py A) :
  (forall w, file (m w).2 = file w) -> keeps file_stays m.
Proof. intros Hm w. unfold file_stays. rewrite Hm. intros H; exact H. Qed.

Lemma stays_save : keeps file_stays save.
Proof. intros w _. cbn. eexists. reflexivity. Qed.

(** Splits a goal [keeps file_stays m] and closes what [frame] leaves
    when it is an assignment to the store or a call of [save]. *)
Ltac stays :=
  frame;
  try solve [ apply stays_save
            | apply stays_same_file; intros ?; reflexivity ].

Lemma add_task_loop_stays ti de pr ex first pending : forall bl,
  keeps file_stays (add_task_loop ti de pr ex first pending bl).
Proof.
  induction pending as [|l pending IH]; intros bl; cbn [add_task_loop];
    stays. apply IH.
Qed.

Lemma add_task_stays : keeps file_stays add_task.
Proof. unfold add_task. stays. apply add_task_loop_stays. Qed.

Lemma edit_task_loop_stays k rest : forall i,
  keeps file_stays (edit_task_loop k i rest).
Proof.
  induction rest as [|t rest IH]; intros i; cbn [edit_task_loop]; stays.
  apply IH.
Qed.

Lemma edit_task_stays : keeps file_stays edit_task.
Proof. unfold edit_task. stays. apply edit_task_loop_stays. Qed.

Lemma complete_bullet_stays : keeps file_stays complete_bullet.
Proof.
  apply stays_same_file. intros w. rewrite complete_bullet_run.
  destruct (stdin w) as [|l rest]; [reflexivity|].
  destruct (as_int l); reflexivity.
Qed.

Lemma search_loop_stays kw rest : forall found,
  keeps file_stays (search_loop kw found rest).
Proof.
  induction rest as [|t rest IH]; intros found; cbn [search_loop]; stays;
    apply IH.
Qed.

Lemma search_stays : keeps file_stays search.
Proof. unfold search. stays. apply search_loop_stays. Qed.

Lemma delete_task_loop_stays k rest : forall i,
  keeps file_stays (delete_task_loop k i rest).
Proof.
  induction rest as [|t rest IH]; intros i; cbn [delete_task_loop]; stays.
  apply IH.
Qed.

Lemma delete_task_stays : keeps file_stays delete_task.
Proof.
  unfold delete_task. apply (keeps_bind file_stays); [stays|intros ts].
  destruct ts; stays. apply delete_task_loop_stays.
Qed.

Lemma view_tasks_stays strftime repr_bullets :
  keeps file_stays (view_tasks strftime repr_bullets).
Proof.
  apply stays_same_file. intros w. unfold view_tasks. run.
  destruct (tasks w) as [|t ts] eqn:Hts; [reflexivity|].
  rewrite <- Hts.
  pose proof (view_tasks_loop_run strftime repr_bullets (tasks w) [] w
                eq_refl) as Hloop.
  cbn [length app] in Hloop. rewrite Hloop. reflexivity.
Qed.

Lemma cleanup_stays : keeps file_stays cleanup.
Proof. unfold cleanup. stays. Qed.

(** Goes through one turn of the loop of [main], operation by operation;
    [tac] closes the goal about the turns that follow. *)
Ltac turn tac :=
  repeat first
    [ apply (keeps_if file_stays)
    | apply (keeps_ret file_stays)
    | tac
    | apply (keeps_bind file_stays);
      [ first [ apply cleanup_stays | apply add_task_stays
              | apply edit_task_stays | apply complete_bullet_stays
              | apply search_stays | apply view_tasks_stays
              | apply delete_task_stays | apply (keeps_input file_stays)
              | apply stays_same_file; reflexivity ]
      | intros ? ] ].

Section Main.
Variable strftime : datetime -> string -> string.
Variable repr_bullets : list bullet -> string.

(** The loop of [main] never runs out of turns: any two numbers of turns
    above the number of lines of the console give the same run. *)
Lemma main_loop_fuel n : forall m w,
  (length (stdin w) < n)%nat -> (length (stdin w) < m)%nat ->
  main_loop strftime repr_bullets n w = main_loop strftime repr_bullets m w.
Proof.
  induction n as [|n IH]; intros m w Hn Hm; [lia|].
  destruct m as [|m]; [lia|]. cbn [main_loop].
  rewrite !(run_bind cleanup), cleanup_run. cbn zeta.
  rewrite !(run_bind menu). unfold menu at 1 2. unfold print at 1 3.
  rewrite !(run_bind (input _)). unfold input at 1 2.
  cbn [tasks file stdin stdout clock].
  destruct (stdin w) as [|l rest] eqn:Hin; [reflexivity|].
  cbn [length] in Hn, Hm. cbn [tail].
  assert (forall w', stdin w' `suffix_of` rest ->
                     main_loop strftime repr_bullets n w'
                     = main_loop strftime repr_bullets m w') as Hk.
  { intros w' Hsuf. apply suffix_length in Hsuf. apply IH; lia. }
  repeat match goal with
         | |- (if ?b then _ else _) _ = (if ?b then _ else _) _ =>
             destruct b
         end;
    try reflexivity;
    apply bind_shrinks_ext; try exact Hk;
    first [ apply add_task_shrinks | apply edit_task_shrinks
          | apply complete_bullet_shrinks | apply search_shrinks
          | apply view_tasks_shrinks | apply delete_task_shrinks
          | apply shrinks_same_stdin; reflexivity ].
Qed.

Lemma exits_by_seven_cons {A} (r : result A * world) l lines :
  exits_by_seven r lines -> exits_by_seven r (l :: lines).
Proof.
  unfold exits_by_seven. destruct r.1; [|intros _; exact I].
  intros (l' & Hl' & H7). exists l'. split; [right; exact Hl'|exact H7].
Qed.

Lemma main_loop_exits_by_seven n : forall w,
  exits_by_seven (main_loop strftime repr_bullets n w) (stdin w).
Proof.
  induction n as [|n IH]; intros w; [exact I|].
  cbn [main_loop].
  rewrite (run_bind cleanup), cleanup_run. cbn zeta.
  rewrite (run_bind menu). unfold menu at 1. unfold print at 1.
  rewrite (run_bind (input _)). unfold input at 1.
  cbn [tasks file stdin stdout clock].
  destruct (stdin w) as [|l rest] eqn:Hin; [exact I|]. cbn [tail].
  set (w1 := World _ _ _ _ _).
  change rest with (stdin w1) at 1.
  destruct (String.eqb (raw l) "7") eqn:H7.
  { apply String.eqb_eq in H7. rewrite H7. cbn.
    exists l. split; [left|exact H7]. }
  apply exits_by_seven_cons.
  repeat match goal with
         | |- exits_by_seven ((if ?b then _ else _) _) _ => destruct b
         end;
    apply bind_exits_by_seven; try exact IH;
    first [ apply add_task_shrinks | apply edit_task_shrinks
          | apply complete_bullet_shrinks | apply search_shrinks
          | apply view_tasks_shrinks | apply delete_task_shrinks
          | apply shrinks_same_stdin; reflexivity ].
Qed.

(** X29: [main] returns only through the choice 7: when it returns, one
    of the lines of the console was the text ["7"]; on a console without
    such a line every run ends in an exception. *)
Theorem main_exits_by_seven (w : world) :
  match (main strftime repr_bullets w).1 with
  | Returned _ => exists l, l ∈ stdin w /\ raw l = "7"
  | Raised _ => True
  end.
Proof.
  unfold main. rewrite run_bind, TaskManager_init_closed. run.
  set (w1 := World _ _ _ _ _).
  apply (main_loop_exits_by_seven _ w1).
Qed.



Lemma main_loop_stays n :
  keeps file_stays (main_loop strftime repr_bullets n).
Proof.
  induction n as [|n IH]; cbn [main_loop];
    [apply (keeps_throw file_stays)|]. turn ltac:(exact IH).
Qed.

(** X30: however a run of [main] ends, by the choice 7, by an exception
    of an operation or by the end of the console, it leaves a task file
    behind: [cleanup] writes it before the first menu and nothing removes
    it. *)
Theorem main_leaves_file (w : world) :
  is_Some (file (main strftime repr_bullets w).2).
Proof.
  unfold main. rewrite run_bind, TaskManager_init_closed. run.
  set (w1 := World _ _ _ _ _). set (n := length _).
  cbn [main_loop]. rewrite (run_bind cleanup), cleanup_run. cbn zeta.
  match goal with |- is_Some (file (?k ?w2).2) =>
    assert (keeps file_stays k) as Hk; [|apply (Hk w2)] end.
  - turn ltac:(apply main_loop_stays).
  - cbn. eexists. reflexivity.
Qed.

End Main.


(** ** More on complete_bullet and add_task *)

(** X21: [complete_bullet] marks nothing: whatever the store holds and
    whatever is typed, the store and the file are afterwards as they were,
    and the call returns right after its prompt or raises [NameError] (a
    line that is no integer) or [EOFError] (no line). *)
Theorem complete_bullet_inert (w : world) :
  tasks (complete_bullet w).2 = tasks w /\
  file (complete_bullet w).2 = file w /\
  ((complete_bullet w).1 = Returned tt \/
   (complete_bullet w).1 = Raised NameError \/
   (complete_bullet w).1 = Raised EOFError).
Proof.
  rewrite complete_bullet_run.
  destruct (stdin w) as [|l rest]; [cbn; auto|].
  destruct (as_int l); cbn; auto.
Qed.

Lemma add_task_ids_distinct_witness :
  NoDup (map id (tasks (add_task (add_store ["x"; "y"])).2)).
Proof.
  apply (add_task_ids_distinct (add_store ["x"; "y"])). constructor.
Defined.
